(** * Meet-scheduler bot: the orchestration layer of [src/app.py]

    A shallow embedding of the command handler [schedule_meet], of the
    recommendation client [process_schedule_request] and of the global
    command error handler [on_command_error], with the properties the
    specification states about them.

    Python strings are sequences of Unicode code points, and [len] counts
    code points: a string is a [list N] here.  The chat platform and the
    language-model chain are external: their answers are read from an
    environment record, and everything the handler does to them is
    recorded in a trace of events. *)

From Stdlib Require Import ZArith NArith List Bool Lia Ascii String DecimalString.
From stdpp Require Import base list gmap.
Import ListNotations.

Local Open Scope list_scope.

(** ** Python strings *)

Module PyStr.

Definition char := N.
Definition pystr := list char.

(** An ASCII literal of the source, as code points. *)
Definition py (s : string) : pystr :=
  map (fun a => N_of_ascii a) (list_ascii_of_string s).

Definition NL : char := 10%N.          (* '\n' *)
Definition ZWSP : char := 8203%N.      (* U+200B, zero-width space *)
Definition AT : char := 64%N.          (* '@' *)

(** [bool(s)] for a string: the empty string is falsy. *)
Definition truthy (s : pystr) : bool :=
  match s with [] => false | _ :: _ => true end.

(** [a == b] on strings. *)
Fixpoint streq (a b : pystr) : bool :=
  match a, b with
  | [], [] => true
  | x :: a', y :: b' => (x =? y)%N && streq a' b'
  | _, _ => false
  end.

(** [s.startswith(p)]. *)
Fixpoint startswith (p s : pystr) : bool :=
  match p, s with
  | [], _ => true
  | _ :: _, [] => false
  | a :: p', c :: s' => (a =? c)%N && startswith p' s'
  end.

(** [sub in s]: [sub] occurs in [s] at some position. *)
Fixpoint contains (sub s : pystr) : bool :=
  startswith sub s ||
  match s with
  | [] => false
  | _ :: s' => contains sub s'
  end.

(** [s.replace(old, new)]: the occurrences of [old] are found from the
    left without overlap and each one is replaced by [new].  [skip] is the
    number of code points of the occurrence just replaced that are still to
    be stepped over.  Python's special case of an empty [old] puts [new]
    before every code point and at the end. *)
Fixpoint replace_scan (old new : pystr) (skip : nat) (s : pystr) : pystr :=
  match s with
  | [] => []
  | c :: s' =>
      match skip with
      | S k => replace_scan old new k s'
      | O => if startswith old s
             then new ++ replace_scan old new (length old - 1) s'
             else c :: replace_scan old new 0 s'
      end
  end.

Definition replace (old new s : pystr) : pystr :=
  match old with
  | [] => new ++ flat_map (fun c => c :: new) s
  | _ :: _ => replace_scan old new 0 s
  end.

(** [str.isspace] on one code point: the white-space table of CPython
    ([_PyUnicode_IsWhitespace]).  U+200B is not in it. *)
Definition isspace (c : char) : bool :=
  ((9 <=? c) && (c <=? 13) || (28 <=? c) && (c <=? 32) ||
   (c =? 133) || (c =? 160) || (c =? 5760) ||
   (8192 <=? c) && (c <=? 8202) || (c =? 8232) || (c =? 8233) ||
   (c =? 8239) || (c =? 8287) || (c =? 12288))%N.

Fixpoint lstrip_by (drop : char -> bool) (s : pystr) : pystr :=
  match s with
  | [] => []
  | c :: s' => if drop c then lstrip_by drop s' else s
  end.

Definition rstrip_by (drop : char -> bool) (s : pystr) : pystr :=
  rev (lstrip_by drop (rev s)).

(** [s.strip()] *)
Definition strip (s : pystr) : pystr :=
  rstrip_by isspace (lstrip_by isspace s).

(** [s.rstrip(chars)] *)
Definition rstrip (chars s : pystr) : pystr :=
  rstrip_by (fun c => existsb (N.eqb c) chars) s.

(** [s.split(sep)] for a one-code-point separator. *)
Fixpoint split (sep : char) (s : pystr) : list pystr :=
  match s with
  | [] => [[]]
  | c :: s' =>
      if (c =? sep)%N then [] :: split sep s'
      else match split sep s' with
           | [] => [[c]]
           | l :: ls => (c :: l) :: ls
           end
  end.

(** [s[:n]] for [0 <= n]. *)
Definition slice_to (n : nat) (s : pystr) : pystr := firstn n s.

End PyStr.
Import PyStr.


(** ** The outside world: events, outcomes and the handler monad *)

Module World.

(** The exceptions the handler distinguishes.  [OtherException] stands for
    every other subclass of [Exception] (an [AttributeError], a failure of
    the model call, ...). *)
Inductive exn := TimeoutError | Forbidden | HTTPException | OtherException.

Inductive result (A : Type) :=
| Ok (a : A)
| Raise (e : exn).
Arguments Ok {A} a.
Arguments Raise {A} e.

(** [message.author.display_name], [message.author.name],
    [message.content]. *)
Record message := Message {
  display_name : pystr;
  name : pystr;
  content : pystr
}.

(** [ctx.send] and [channel.send] post to the same channel; the trace keeps
    which of the two the source called. *)
Inductive sender := ViaCtx | ViaChannel.

Inductive event :=
| EvTyping
| EvFetch (limit : nat)
| EvInvoke (chat_history : pystr)
| EvSend (via : sender) (text : pystr) (delivered : bool).

(** What the platform and the chain answer during one invocation:
    the outcome of [channel.history(limit=20)] under
    [asyncio.wait_for(..., timeout=5.0)], the outcome of [chain.invoke]
    on each transcript, whether the k-th posting attempt
    (k = 0, 1, ...) fails, and whether the request that [ctx.typing()]
    awaits on entry fails. *)
Record env := Env {
  fetch_outcome : result (list message);
  chain_outcome : pystr -> result pystr;
  send_outcome : nat -> option exn;
  typing_outcome : option exn
}.

Definition trace := list event.

(** A computation reads the environment, extends the trace of what was
    done so far and returns a value or raises. *)
Definition M (A : Type) : Type := env -> trace -> result A * trace.

Definition ret {A} (a : A) : M A := fun _ tr => (Ok a, tr).
Definition raise {A} (e : exn) : M A := fun _ tr => (Raise e, tr).

Definition bind {A B} (m : M A) (k : A -> M B) : M B :=
  fun w tr =>
    match m w tr with
    | (Ok a, tr') => k a w tr'
    | (Raise e, tr') => (Raise e, tr')
    end.

(** [try: m  except Exception as e: h e] *)
Definition try_except {A} (m : M A) (h : exn -> M A) : M A :=
  fun w tr =>
    match m w tr with
    | (Ok a, tr') => (Ok a, tr')
    | (Raise e, tr') => h e w tr'
    end.

(** Runs [m] and hands its outcome to the code that follows, for a [try]
    whose handler returns from the function. *)
Definition attempt {A} (m : M A) : M (result A) :=
  fun w tr => let (r, tr') := m w tr in (Ok r, tr').

Definition is_send (ev : event) : bool :=
  match ev with EvSend _ _ _ => true | _ => false end.

Definition is_invoke (ev : event) : bool :=
  match ev with EvInvoke _ => true | _ => false end.

Definition is_fetch (ev : event) : bool :=
  match ev with EvFetch _ => true | _ => false end.

Definition sends_so_far (tr : trace) : nat :=
  length (List.filter is_send tr).

Definition send (via : sender) (text : pystr) : M unit :=
  fun w tr =>
    match send_outcome w (sends_so_far tr) with
    | None => (Ok tt, tr ++ [EvSend via text true])
    | Some e => (Raise e, tr ++ [EvSend via text false])
    end.

(** Entering [async with ctx.typing()]: the typing request is sent to the
    platform and awaited; when it fails its exception is raised. *)
Definition typing : M unit :=
  fun w tr =>
    match typing_outcome w with
    | None => (Ok tt, tr ++ [EvTyping])
    | Some e => (Raise e, tr ++ [EvTyping])
    end.

Definition history (limit : nat) : M (list message) :=
  fun w tr => (fetch_outcome w, tr ++ [EvFetch limit]).

Definition chain_invoke (chat_history : pystr) : M pystr :=
  fun w tr => (chain_outcome w chat_history, tr ++ [EvInvoke chat_history]).

(** The texts posted, in order, with whether each was delivered. *)
Definition posted (tr : trace) : list (pystr * bool) :=
  flat_map (fun ev => match ev with
                      | EvSend _ text d => [(text, d)]
                      | _ => []
                      end) tr.

End World.
Import World.

Notation "x <- m ;; k" := (bind m (fun x => k))
  (at level 100, m at next level, right associativity).
Notation "m ;; k" := (bind m (fun _ => k))
  (at level 100, right associativity).

(** ** The program: [src/app.py] *)

Definition MAX_MESSAGE_LENGTH : nat := 2000.

(** *** The texts the bot posts *)

Definition CROSS : char := 10060%N.                  (* U+274C *)
Definition CLOCK : char := 9200%N.                   (* U+23F0 *)
Definition WARNING : pystr := [9888%N; 65039%N].     (* U+26A0 U+FE0F *)

Definition truncation_marker : pystr :=
  [NL; NL] ++ py "*[Response truncated]*".

Definition analysis_error_msg : pystr :=
  WARNING ++ py " Sorry, I encountered an error while analyzing the conversation. Please try again later.".

Definition usage_msg : pystr := CROSS :: py " Usage: `!schedule meet`".

Definition timeout_msg : pystr :=
  CLOCK :: py " Timeout while fetching messages. Please try again.".

Definition no_messages_msg : pystr :=
  CROSS :: py " No messages found in this channel.".

Definition no_valid_messages_msg : pystr :=
  CROSS :: py " No valid messages found to process.".

Definition trouble_msg : pystr :=
  WARNING ++ py " I'm having trouble analyzing the conversation right now. Please try again in a moment.".

Definition no_response_msg : pystr :=
  WARNING ++ py " I couldn't generate a response. Please try again.".

Definition forbidden_msg : pystr :=
  CROSS :: py " I don't have permission to read message history in this channel.".

Definition http_error_msg : pystr :=
  CROSS :: py " There was an issue communicating with Discord. Please try again.".

Definition unexpected_msg : pystr :=
  CROSS :: py " An unexpected error occurred. The issue has been logged.".

(** *** The recommendation client, lines 36-56 *)

(** Lines 50-51: the clamp on the chain's answer. *)
Definition clamp_response (response : pystr) : pystr :=
  if MAX_MESSAGE_LENGTH <? length response
  then slice_to (MAX_MESSAGE_LENGTH - 50) response ++ truncation_marker
  else response.

Definition process_schedule_request (messages_string : pystr) : M pystr :=
  try_except
    (response <- chain_invoke messages_string ;;
     ret (clamp_response response))
    (fun _ => ret analysis_error_msg).

(** *** The transcript, lines 124-139 *)

Definition TOKEN_EVERYONE : pystr := py "@everyone".
Definition TOKEN_HERE : pystr := py "@here".
Definition SAFE_EVERYONE : pystr := AT :: ZWSP :: py "everyone".
Definition SAFE_HERE : pystr := AT :: ZWSP :: py "here".

(** Line 136. *)
Definition sanitize (content : pystr) : pystr :=
  replace TOKEN_HERE SAFE_HERE (replace TOKEN_EVERYONE SAFE_EVERYONE content).

(** Line 130: [display_name or name]. *)
Definition username (m : message) : pystr :=
  if truthy (display_name m) then display_name m else name m.

(** Line 134: [content and len(content) <= 500] on the stripped content. *)
Definition keeps (content : pystr) : bool :=
  truthy content && (length content <=? 500).

(** One turn of the loop of lines 129-137. *)
Definition append_message (messages_string : pystr) (m : message) : pystr :=
  let content := strip (content m) in
  if keeps content
  then messages_string ++ (username m ++ py ": " ++ sanitize content ++ [NL])
  else messages_string.

(** Lines 128-139, on the messages already in chronological order. *)
Definition build_transcript (messages : list message) : pystr :=
  rstrip [NL] (fold_left append_message messages []).

(** *** The command handler, lines 90-169 *)

Record context := Context {
  action : option pystr;        (* the sub-action argument, None when absent *)
  guild_name : option pystr     (* ctx.guild.name; ctx.guild is None outside a guild *)
}.

(** Line 97: [action != 'meet']. *)
Definition action_is_meet (a : option pystr) : bool :=
  match a with
  | Some s => streq s (py "meet")
  | None => false
  end.

(** Line 146: the log line reads [ctx.guild.name], which raises an
    [AttributeError] when [ctx.guild] is [None]. *)
Definition log_request (ctx : context) : M unit :=
  match guild_name ctx with
  | Some _ => ret tt
  | None => raise OtherException
  end.

(** Lines 109-113, awaited under [asyncio.wait_for(..., timeout=5.0)] at
    line 115: running out of time is the outcome [Raise TimeoutError] of
    the fetch. *)
Definition fetch_messages : M (list message) := history 20.

(** Lines 104-160: the body of the outer [try]. *)
Definition schedule_body (ctx : context) : M unit :=
  fetched <- attempt fetch_messages ;;
  match fetched with
  | Raise TimeoutError => send ViaCtx timeout_msg
  | Raise e => raise e
  | Ok messages =>
      match messages with
      | [] => send ViaCtx no_messages_msg
      | _ :: _ =>
          let messages := rev messages in
          let messages_string := build_transcript messages in
          if negb (truthy messages_string)
          then send ViaCtx no_valid_messages_msg
          else
            log_request ctx ;;
            outcome <- attempt (process_schedule_request messages_string) ;;
            match outcome with
            | Raise _ => send ViaCtx trouble_msg
            | Ok response =>
                if truthy response
                then send ViaChannel response
                else send ViaCtx no_response_msg
            end
      end
  end.

(** Lines 162-169: the handlers of the outer [try]; [discord.Forbidden]
    is tried before its base class [discord.HTTPException]. *)
Definition schedule_handlers (e : exn) : M unit :=
  match e with
  | Forbidden => send ViaCtx forbidden_msg
  | HTTPException => send ViaCtx http_error_msg
  | _ => send ViaCtx unexpected_msg
  end.

Definition schedule_meet (ctx : context) : M unit :=
  if negb (action_is_meet (action ctx))
  then send ViaCtx usage_msg
  else typing ;; try_except (schedule_body ctx) schedule_handlers.

(** Runs a computation of the handler from an empty trace. *)
Definition run {A} (m : M A) (w : env) : result A * trace := m w [].

(** *** The global command error handler, lines 77-88 *)

(** A finite Python float.  A double is a dyadic rational, and every
    dyadic rational [fnum / 2 ^ fexp] is a value here, so the doubles are
    among them; infinities and NaN are not. *)
Record pyfloat := PyFloat { fnum : Z; fexp : N }.

Definition fden (x : pyfloat) : Z := (2 ^ Z.of_N (fexp x))%Z.

(** [a < b] *)
Definition flt (a b : pyfloat) : bool :=
  (fnum a * fden b <? fnum b * fden a)%Z.

(** [a - b], without rounding: the difference of two doubles is the
    double Python computes whenever it fits a double, as it does between
    two time stamps of one magnitude. *)
Definition fsub (a b : pyfloat) : pyfloat :=
  PyFloat (fnum a * fden b - fnum b * fden a) (fexp a + fexp b).

Inductive command_error :=
| CommandNotFound
| MissingRequiredArgument
| CommandOnCooldown (retry_after : pyfloat)
| CommandInvokeError (e : exn).

(** The digits of [f"{x:.1f}"] as a whole number of tenths: Python
    converts the exact value of the float, rounded to the nearest tenth,
    and a value exactly between two tenths goes to the even one. *)
Definition tenths (x : pyfloat) : Z :=
  let n := (Z.abs (fnum x) * 10)%Z in
  let q := (n / fden x)%Z in
  let r := (n mod fden x)%Z in
  if (2 * r <? fden x)%Z then q
  else if (fden x <? 2 * r)%Z then (q + 1)%Z
  else if Z.even q then q else (q + 1)%Z.

Definition decimal (n : Z) : pystr :=
  py (NilZero.string_of_uint (N.to_uint (Z.to_N n))).

(** [f"{x:.1f}"] *)
Definition format_1f (x : pyfloat) : pystr :=
  let t := tenths x in
  (if (fnum x <? 0)%Z then py "-" else []) ++
  decimal (t / 10) ++ py "." ++ decimal (t mod 10).

Definition cooldown_msg (retry_after : pyfloat) : pystr :=
  CLOCK :: py " Please wait " ++ format_1f retry_after ++
  py " seconds before using this command again.".

Definition on_command_error (error : command_error) : M unit :=
  match error with
  | CommandNotFound => ret tt
  | MissingRequiredArgument => send ViaCtx usage_msg
  | CommandOnCooldown retry_after => send ViaCtx (cooldown_msg retry_after)
  | CommandInvokeError _ => send ViaCtx unexpected_msg
  end.

(** *** The cooldown and the dispatch of the command *)

(** Line 91: [commands.cooldown(1, 10, BucketType.channel)], one use per
    10 seconds per channel. *)
Definition COOLDOWN_PER : pyfloat := PyFloat 10 0.

(** Modelled from the spec: the code of the cooldown decorator belongs to
    the chat library and is not in the repository.  The spec describes a
    map of expiring time stamps keyed by channel: an invocation inside the
    window opened by the last accepted invocation of the channel is
    rejected at once with the remaining wait time, nothing is queued, and
    any other invocation is accepted and opens a new window.  Time stamps
    are seconds, as floats. *)
Definition cooldown_check (cooldowns : gmap Z pyfloat) (channel : Z) (now : pyfloat)
  : option pyfloat * gmap Z pyfloat :=
  match cooldowns !! channel with
  | Some opened =>
      let elapsed := fsub now opened in
      if flt elapsed COOLDOWN_PER
      then (Some (fsub COOLDOWN_PER elapsed), cooldowns)
      else (None, <[channel := now]> cooldowns)
  | None => (None, <[channel := now]> cooldowns)
  end.

(** Modelled from the spec: the command dispatcher of the chat library.
    One [!schedule ...] message arrives in [channel] at time [now]: the
    cooldown is checked before the handler runs; a rejection, and an
    exception that escapes the handler, go to [on_command_error]. *)
Definition dispatch_schedule (cooldowns : gmap Z pyfloat) (channel : Z)
    (now : pyfloat) (ctx : context) : M unit * gmap Z pyfloat :=
  match cooldown_check cooldowns channel now with
  | (Some retry_after, cooldowns') =>
      (on_command_error (CommandOnCooldown retry_after), cooldowns')
  | (None, cooldowns') =>
      (try_except (schedule_meet ctx)
                  (fun e => on_command_error (CommandInvokeError e)),
       cooldowns')
  end.

(** *** Start-up and shutdown, lines 204-243 *)

Module Boot.

(** What can be raised at start-up.  [OtherError] stands for the other
    subclasses of [Exception]; [OtherBaseException] for what is a
    [BaseException] only and not a [KeyboardInterrupt] (a [SystemExit],
    a cancellation). *)
Inductive boot_exn :=
| LoginFailure
| KeyboardInterrupt
| ImportError
| OtherError
| OtherBaseException.

(** [isinstance(e, Exception)] *)
Definition is_exception (e : boot_exn) : bool :=
  match e with
  | KeyboardInterrupt | OtherBaseException => false
  | _ => true
  end.

(** The lines written to the log. *)
Inductive log_line :=
| TokenNotSet            (* line 207 *)
| ImportFailed           (* line 215 *)
| Starting               (* line 225 *)
| InvalidToken           (* line 228 *)
| ShutdownRequested      (* line 230 *)
| StartFailed            (* line 232 *)
| StoppedByUser          (* line 241 *)
| FatalError.            (* line 243 *)

Inductive boot_event :=
| BootLog (line : log_line)
| BotStart (token : pystr)
| BotClose.

(** The process environment and what the platform does at start-up:
    [os.getenv('BOT_TOKEN')], whether [from agent import chain] raises,
    whether [bot.start] raises or returns, what [bot.is_closed()] answers
    in the [finally] block, and whether [bot.close] raises. *)
Record boot_env := BootEnv {
  BOT_TOKEN : option pystr;
  import_outcome : option boot_exn;
  start_outcome : option boot_exn;
  is_closed : bool;
  close_outcome : option boot_exn
}.

(** A value or a raised exception, with the events so far. *)
Definition outcome (A : Type) : Type := (boot_exn + A) * list boot_event.

(** Line 206: [not BOT_TOKEN] holds for [None] and for the empty string. *)
Definition token_given (b : boot_env) : bool :=
  match BOT_TOKEN b with
  | Some (_ :: _) => true
  | _ => false
  end.

(** Lines 204-216. *)
Definition validate_environment (b : boot_env) : outcome bool :=
  if negb (token_given b) then (inr false, [BootLog TokenNotSet])
  else
    match import_outcome b with
    | None => (inr true, [])
    | Some ImportError => (inr false, [BootLog ImportFailed])
    | Some e => (inl e, [])
    end.

(** Lines 224-232: the [try] block of [main] with its handlers; the result
    is the exception still pending when the [finally] block is entered. *)
Definition start_bot (b : boot_env) : option boot_exn * list boot_event :=
  let token := match BOT_TOKEN b with Some t => t | None => [] end in
  let begun := [BootLog Starting; BotStart token] in
  match start_outcome b with
  | None => (None, begun)
  | Some LoginFailure => (None, begun ++ [BootLog InvalidToken])
  | Some KeyboardInterrupt => (None, begun ++ [BootLog ShutdownRequested])
  | Some e =>
      if is_exception e then (None, begun ++ [BootLog StartFailed])
      else (Some e, begun)
  end.

(** Lines 233-235: the [finally] block. *)
Definition close_bot (b : boot_env) : option boot_exn * list boot_event :=
  if negb (is_closed b) then (close_outcome b, [BotClose]) else (None, []).

(** Lines 218-235.  An exception raised in the [finally] block replaces the
    pending one. *)
Definition main (b : boot_env) : outcome unit :=
  match validate_environment b with
  | (inl e, tr) => (inl e, tr)
  | (inr false, tr) => (inr tt, tr)
  | (inr true, tr) =>
      let (pending, started) := start_bot b in
      let (raised, closed) := close_bot b in
      (match raised, pending with
       | Some e, _ => inl e
       | None, Some e => inl e
       | None, None => inr tt
       end,
       tr ++ started ++ closed)
  end.

(** Lines 237-243: the entry point, [asyncio.run(main())] under its two
    handlers. *)
Definition entry_point (b : boot_env) : outcome unit :=
  match main b with
  | (inr tt, tr) => (inr tt, tr)
  | (inl KeyboardInterrupt, tr) => (inr tt, tr ++ [BootLog StoppedByUser])
  | (inl e, tr) =>
      if is_exception e then (inr tt, tr ++ [BootLog FatalError])
      else (inl e, tr)
  end.

Definition is_start (ev : boot_event) : bool :=
  match ev with BotStart _ => true | _ => false end.

Definition is_close (ev : boot_event) : bool :=
  match ev with BotClose => true | _ => false end.

End Boot.

(** ** Specification relations *)

(** The graph of [replace old new] for a non-empty [old]: the input is cut,
    from the left, into occurrences of [old] and single code points at
    which [old] does not start. *)
Inductive replaced (old new : pystr) : pystr -> pystr -> Prop :=
| replaced_nil : replaced old new [] []
| replaced_hit s r :
    replaced old new s r -> replaced old new (old ++ s) (new ++ r)
| replaced_miss c s r :
    startswith old (c :: s) = false ->
    replaced old new s r -> replaced old new (c :: s) (c :: r).

(** The graph of [sanitize]: one pass from the left in which either token
    is replaced by its safe variant. *)
Inductive sanitized : pystr -> pystr -> Prop :=
| sanitized_nil : sanitized [] []
| sanitized_everyone s r :
    sanitized s r -> sanitized (TOKEN_EVERYONE ++ s) (SAFE_EVERYONE ++ r)
| sanitized_here s r :
    sanitized s r -> sanitized (TOKEN_HERE ++ s) (SAFE_HERE ++ r)
| sanitized_other c s r :
    startswith TOKEN_EVERYONE (c :: s) = false ->
    startswith TOKEN_HERE (c :: s) = false ->
    sanitized s r -> sanitized (c :: s) (c :: r).

(** The messages the loop of lines 129-137 keeps, and the line it appends
    for each of them. *)
Definition qualifies (m : message) : bool := keeps (strip (content m)).

Definition transcript_line (m : message) : pystr :=
  username m ++ py ": " ++ sanitize (strip (content m)) ++ [NL].

(** [m] keeps the trace invariant [P] and returns only values in [Q]. *)
Definition hoare {A} (P : event -> Prop) (m : M A) (Q : A -> Prop) : Prop :=
  forall w tr,
    Forall P tr ->
    Forall P (snd (m w tr)) /\
    forall a, fst (m w tr) = Ok a -> Q a.

(** The events an invocation of the handler can produce: the typing
    indicator, the fetch of the last 20 messages, a call of the chain on a
    non-empty transcript, the reply posted through [channel.send], and the
    fixed notices posted through [ctx.send]. *)
Definition notices : list pystr :=
  [usage_msg; timeout_msg; no_messages_msg; no_valid_messages_msg;
   no_response_msg; forbidden_msg; http_error_msg; unexpected_msg].

Inductive handler_event : event -> Prop :=
| handler_typing : handler_event EvTyping
| handler_fetch : handler_event (EvFetch 20)
| handler_invoke t : truthy t = true -> handler_event (EvInvoke t)
| handler_reply text d :
    truthy text = true -> length text <= MAX_MESSAGE_LENGTH ->
    handler_event (EvSend ViaChannel text d)
| handler_notice text d :
    In text notices -> handler_event (EvSend ViaCtx text d).

(** The posted text fits the platform's limit. *)
Definition within_limit (ev : event) : Prop :=
  match ev with
  | EvSend _ text _ => length text <= MAX_MESSAGE_LENGTH
  | _ => True
  end.

(** How an invocation ends, after the events [pre] that precede its first
    posting: the posting is delivered; or it fails, outside the outer
    [try] or in one of its handlers, and its exception escapes; or it fails
    under the outer [try] and one notice of the handlers follows, delivered
    or not. *)
Inductive answer_run (w : env) (pre : trace) : result unit * trace -> Prop :=
| answer_delivered via text :
    send_outcome w 0 = None ->
    answer_run w pre (Ok tt, pre ++ [EvSend via text true])
| answer_failed via text e :
    send_outcome w 0 = Some e ->
    answer_run w pre (Raise e, pre ++ [EvSend via text false])
| answer_second via text e text' :
    send_outcome w 0 = Some e -> send_outcome w 1 = None ->
    answer_run w pre
      (Ok tt, pre ++ [EvSend via text false; EvSend ViaCtx text' true])
| answer_second_failed via text e text' e' :
    send_outcome w 0 = Some e -> send_outcome w 1 = Some e' ->
    answer_run w pre
      (Raise e', pre ++ [EvSend via text false; EvSend ViaCtx text' false]).

(** The events that can precede the first posting of an invocation of
    [schedule_meet]: none; the typing indicator and the fetch; or these and
    one call of the chain, on the non-empty transcript of the fetched
    messages, for a command sent with the action [meet] in a guild. *)
Definition before_answer (w : env) (ctx : context) (pre : trace) : Prop :=
  pre = [] \/
  pre = [EvTyping; EvFetch 20] \/
  exists fetched,
    fetch_outcome w = Ok fetched /\
    action ctx = Some (py "meet") /\
    guild_name ctx <> None /\
    build_transcript (rev fetched) <> [] /\
    pre = [EvTyping; EvFetch 20; EvInvoke (build_transcript (rev fetched))].

(** ** Sample inputs *)

Module Samples.

Definition alice_says_here : message :=
  Message (py "Alice") (py "alice01") (py "  @here can we meet at 5pm?  ").

Definition bob_says_everyone : message :=
  Message [] (py "bob") (py "@everyone 5pm UTC works").

(** A member whose nickname is a mention token. *)
Definition mention_in_name : message :=
  Message (py "@everyone") (py "mallory") (py "hi").

(** 500 code points: one hundred times [@here]. *)
Definition hundred_mentions : message :=
  Message [] (py "bob") (concat (repeat TOKEN_HERE 100)).

(** One message of two lines. *)
Definition two_line_message : message :=
  Message [] (py "bob") (py "Mon 5pm" ++ [NL] ++ py "Tue 6pm").

Definition blank_message : message := Message [] (py "bob") (py "   ").

(** 501 code points. *)
Definition hundred_mentions_and_one : message :=
  Message [] (py "bob") (concat (repeat TOKEN_HERE 100) ++ py "!").

Definition meet_ctx : context := Context (Some (py "meet")) (Some (py "guild")).
Definition sync_ctx : context := Context (Some (py "sync")) (Some (py "guild")).

(** A platform on which the typing request and every posting succeed, with
    a given outcome of the history fetch and a given answer of the chain. *)
Definition quiet (fetched : result (list message)) (answer : result pystr) : env :=
  Env fetched (fun _ => answer) (fun _ => None) None.

Definition long_reply : pystr := repeat 97%N 2001.

End Samples.

(** * Properties *)

(** ** The model on small inputs *)

Section Examples.

Import Samples.

Example replace_overlap :
  replace (py "aa") (py "b") (py "aaaaa") = py "bba".
Proof. reflexivity. Qed.

Example replace_empty_old :
  replace [] (py "-") (py "abc") = py "-a-b-c-".
Proof. reflexivity. Qed.

Example strip_keeps_inner :
  strip (py "  a b  ") = py "a b" /\ strip [ZWSP] = [ZWSP] /\ strip (py "   ") = [].
Proof. repeat split; reflexivity. Qed.

Example split_lines :
  split NL (py "a" ++ [NL] ++ py "b") = [py "a"; py "b"] /\ split NL [] = [[]].
Proof. split; reflexivity. Qed.

Example sanitize_both :
  sanitize (py "@everyone and @here") =
  AT :: ZWSP :: py "everyone and " ++ AT :: ZWSP :: py "here".
Proof. reflexivity. Qed.

Example transcript_oldest_first :
  build_transcript (rev [alice_says_here; blank_message; bob_says_everyone]) =
  py "bob: " ++ SAFE_EVERYONE ++ py " 5pm UTC works" ++ [NL] ++
  py "Alice: " ++ SAFE_HERE ++ py " can we meet at 5pm?".
Proof. reflexivity. Qed.

Example schedule_meet_replies_once :
  run (schedule_meet meet_ctx) (quiet (Ok [bob_says_everyone]) (Ok (py "Mon 5pm")))
  = (Ok tt, [EvTyping; EvFetch 20;
             EvInvoke (py "bob: " ++ SAFE_EVERYONE ++ py " 5pm UTC works");
             EvSend ViaChannel (py "Mon 5pm") true]).
Proof. reflexivity. Qed.

(** Outside a guild the log line of line 146 raises before the chain is
    called. *)
Example schedule_meet_outside_guild :
  run (schedule_meet (Context (Some (py "meet")) None))
      (quiet (Ok [bob_says_everyone]) (Ok (py "Mon 5pm")))
  = (Ok tt, [EvTyping; EvFetch 20; EvSend ViaCtx unexpected_msg true]).
Proof. reflexivity. Qed.

Example schedule_meet_timeout :
  run (schedule_meet meet_ctx) (quiet (Raise TimeoutError) (Ok (py "Mon 5pm")))
  = (Ok tt, [EvTyping; EvFetch 20; EvSend ViaCtx timeout_msg true]).
Proof. reflexivity. Qed.

(** The float nearest to 0.35 and the float nearest to 0.05, two exact
    ties (1.25 and 0.75), and a negative value that rounds to zero. *)
Example format_1f_samples :
  format_1f (PyFloat 3152519739159347 53) = py "0.3" /\
  format_1f (PyFloat 3602879701896397 56) = py "0.1" /\
  format_1f (PyFloat 5 2) = py "1.2" /\
  format_1f (PyFloat 3 2) = py "0.8" /\
  format_1f (PyFloat 10 0) = py "10.0" /\
  format_1f (PyFloat (-1) 5) = py "-0.0".
Proof. repeat split; vm_compute; reflexivity. Qed.

(** Two time stamps 9.65 seconds apart, as the floats nearest to
    1700000000.123 and 1700000009.773: 0.34999990463256836 seconds are
    left, shown as 0.3. *)
Example remaining_between_time_stamps :
  let opened := PyFloat 7130316800515899 22 in
  let now := PyFloat 7130316840990933 22 in
  let remaining := fsub COOLDOWN_PER (fsub now opened) in
  (fnum remaining * 2 ^ 21 = 734003 * fden remaining)%Z /\
  format_1f remaining = py "0.3".
Proof. split; vm_compute; reflexivity. Qed.

End Examples.

(** ** Strings *)

Section StringFacts.

Implicit Types p s r w old new : pystr.

Lemma startswith_app p s : startswith p (p ++ s) = true.
Proof.
  induction p as [|a p IH]; simpl; [reflexivity|].
  rewrite N.eqb_refl. exact IH.
Qed.

Lemma startswith_split p s :
  startswith p s = true -> s = p ++ skipn (length p) s.
Proof.
  revert s. induction p as [|a p IH]; intros [|c s] H; simpl in *;
    try reflexivity; try discriminate.
  apply andb_prop in H as [Hac Hp].
  apply N.eqb_eq in Hac. subst c. f_equal. apply IH. exact Hp.
Qed.

Lemma startswith_cons a p c s :
  startswith (a :: p) (c :: s) = (a =? c)%N && startswith p s.
Proof. reflexivity. Qed.

Lemma startswith_nil_r p : startswith p [] = true -> p = [].
Proof. destruct p; simpl; [reflexivity|discriminate]. Qed.

(** A prefix test does not look past a code point the pattern lacks. *)
Lemma startswith_sep p u sep v :
  forallb (fun c => negb (c =? sep)%N) p = true ->
  startswith p (u ++ sep :: v) = startswith p u.
Proof.
  revert u. induction p as [|a p IH]; intros u Hp; [destruct u; reflexivity|].
  simpl in Hp. apply andb_prop in Hp as [Ha Hp].
  destruct u as [|c u]; simpl.
  - apply negb_true_iff in Ha. rewrite Ha. reflexivity.
  - rewrite IH by exact Hp. reflexivity.
Qed.

Lemma contains_sep p u sep v :
  forallb (fun c => negb (c =? sep)%N) p = true ->
  contains p (u ++ sep :: v) = contains p u || contains p v.
Proof.
  intros Hp. induction u as [|c u IH].
  - pose proof (startswith_sep p [] sep v Hp) as H0.
    change ([] ++ sep :: v) with (sep :: v) in *.
    change (contains p (sep :: v))
      with (startswith p (sep :: v) || contains p v).
    rewrite H0. destruct p; reflexivity.
  - pose proof (startswith_sep p (c :: u) sep v Hp) as Hc.
    change ((c :: u) ++ sep :: v) with (c :: (u ++ sep :: v)) in *.
    change (contains p (c :: (u ++ sep :: v)))
      with (startswith p (c :: (u ++ sep :: v)) || contains p (u ++ sep :: v)).
    rewrite Hc, IH.
    change (contains p (c :: u)) with (startswith p (c :: u) || contains p u).
    rewrite orb_assoc. reflexivity.
Qed.

Lemma contains_cons_sep p sep v :
  forallb (fun c => negb (c =? sep)%N) p = true ->
  contains p (sep :: v) = contains p [] || contains p v.
Proof. exact (contains_sep p [] sep v). Qed.

Lemma startswith_app_l p u v :
  startswith p u = true -> startswith p (u ++ v) = true.
Proof.
  revert u. induction p as [|a p IH]; intros [|c u] H; simpl in *;
    try reflexivity; try discriminate.
  apply andb_prop in H as [-> H]. simpl. apply IH. exact H.
Qed.

Lemma contains_app_l p u v :
  contains p (u ++ v) = false -> contains p u = false.
Proof.
  induction u as [|c u IH]; intros H.
  - destruct p; [|reflexivity].
    destruct v; simpl in H; discriminate.
  - simpl in *. apply orb_false_iff in H as [Hs Hc].
    apply orb_false_iff. split; [|apply IH; exact Hc].
    destruct (startswith p (c :: u)) eqn:E; [|reflexivity].
    apply (startswith_app_l _ _ v) in E. simpl in E. congruence.
Qed.

(** *** [replace] *)

Lemma replace_scan_skip old new k s :
  replace_scan old new k s = replace_scan old new 0 (skipn k s).
Proof.
  revert k. induction s as [|c s IH]; intros [|k]; try reflexivity.
  simpl. apply IH.
Qed.

Lemma replace_nonempty old new s :
  old <> [] -> replace old new s = replace_scan old new 0 s.
Proof. destruct old; [congruence|reflexivity]. Qed.

Lemma replace_scan_hit old new s :
  old <> [] ->
  replace_scan old new 0 (old ++ s) = new ++ replace_scan old new 0 s.
Proof.
  destruct old as [|a old]; [congruence|intros _].
  simpl. rewrite N.eqb_refl, startswith_app. simpl.
  rewrite Nat.sub_0_r, replace_scan_skip.
  rewrite skipn_app, Nat.sub_diag, skipn_all. reflexivity.
Qed.

Lemma replace_scan_miss old new c s :
  startswith old (c :: s) = false ->
  replace_scan old new 0 (c :: s) = c :: replace_scan old new 0 s.
Proof. intros H. simpl replace_scan. simpl in H. rewrite H. reflexivity. Qed.

Lemma replace_scan_replaced old new :
  old <> [] -> forall s, replaced old new s (replace_scan old new 0 s).
Proof.
  intros Hold s.
  remember (length s) as n eqn:Hn.
  revert s Hn. induction n as [n IH] using lt_wf_ind. intros s Hn.
  destruct s as [|c s]; [constructor|].
  destruct (startswith old (c :: s)) eqn:E.
  - pose proof (startswith_split _ _ E) as Hs.
    rewrite Hs at 1 2. rewrite replace_scan_hit by exact Hold.
    constructor.
    apply (IH (length (skipn (length old) (c :: s)))); [|reflexivity].
    subst n. rewrite length_skipn.
    destruct old; [congruence|]. simpl. lia.
  - rewrite replace_scan_miss by exact E.
    constructor; [exact E|].
    apply (IH (length s)); [subst n; simpl; lia|reflexivity].
Qed.

(** What [replace] returns begins, up to the first code point of [old],
    like its input. *)
Lemma replaced_prefix a old new w s r :
  replaced (a :: old) (a :: new) s r ->
  forallb (fun c => negb (c =? a)%N) w = true ->
  startswith w r = true -> startswith w s = true.
Proof.
  intros H. revert w.
  induction H as [|s r _ _|c s r Hmiss _ IH]; intros w Hw Hr.
  - exact Hr.
  - destruct w as [|x w]; [reflexivity|].
    simpl in Hw, Hr.
    apply andb_prop in Hw as [Hx _]. apply andb_prop in Hr as [Hr _].
    rewrite Hr in Hx. discriminate.
  - destruct w as [|x w]; [reflexivity|].
    simpl in Hw, Hr |- *.
    apply andb_prop in Hw as [_ Hw]. apply andb_prop in Hr as [-> Hr].
    simpl. apply IH; assumption.
Qed.

End StringFacts.

(** ** Neutralising the mass-mention tokens *)

Section Sanitize.

Implicit Types s r w : pystr.

Local Abbreviation scan_everyone := (replace_scan TOKEN_EVERYONE SAFE_EVERYONE 0).
Local Abbreviation scan_here := (replace_scan TOKEN_HERE SAFE_HERE 0).

Lemma sanitize_scans s : sanitize s = scan_here (scan_everyone s).
Proof. reflexivity. Qed.

Lemma sanitize_nil : sanitize [] = [].
Proof. reflexivity. Qed.

(** The safe variant of [@everyone] holds no [@here]. *)
Lemma scan_here_safe_everyone r :
  scan_here (SAFE_EVERYONE ++ r) = SAFE_EVERYONE ++ scan_here r.
Proof.
  change (SAFE_EVERYONE ++ r)
    with (64 :: 8203 :: 101 :: 118 :: 101 :: 114 :: 121 :: 111 :: 110 :: 101 :: r)%N.
  do 10 (rewrite replace_scan_miss by reflexivity).
  reflexivity.
Qed.

(** [@here] holds no [@everyone]. *)
Lemma scan_everyone_token_here s :
  scan_everyone (TOKEN_HERE ++ s) = TOKEN_HERE ++ scan_everyone s.
Proof.
  change (TOKEN_HERE ++ s) with (64 :: 104 :: 101 :: 114 :: 101 :: s)%N.
  do 5 (rewrite replace_scan_miss by reflexivity).
  reflexivity.
Qed.

Lemma sanitize_everyone s :
  sanitize (TOKEN_EVERYONE ++ s) = SAFE_EVERYONE ++ sanitize s.
Proof.
  rewrite !sanitize_scans, replace_scan_hit by discriminate.
  apply scan_here_safe_everyone.
Qed.

Lemma sanitize_here s :
  sanitize (TOKEN_HERE ++ s) = SAFE_HERE ++ sanitize s.
Proof.
  rewrite !sanitize_scans, scan_everyone_token_here.
  apply replace_scan_hit. discriminate.
Qed.

Lemma sanitize_other c s :
  startswith TOKEN_EVERYONE (c :: s) = false ->
  startswith TOKEN_HERE (c :: s) = false ->
  sanitize (c :: s) = c :: sanitize s.
Proof.
  intros He Hh. rewrite !sanitize_scans.
  rewrite (replace_scan_miss _ _ _ _ He).
  apply replace_scan_miss.
  destruct (startswith TOKEN_HERE (c :: scan_everyone s)) eqn:E; [|reflexivity].
  change TOKEN_HERE with (AT :: py "here") in E, Hh.
  rewrite startswith_cons in E, Hh.
  apply andb_prop in E as [Hc E]. rewrite Hc, andb_true_l in Hh.
  assert (startswith (py "here") s = true) as Hs; [|congruence].
  apply (replaced_prefix AT (py "everyone") (ZWSP :: py "everyone")
           (py "here") s (scan_everyone s)).
  - apply (replace_scan_replaced TOKEN_EVERYONE SAFE_EVERYONE). discriminate.
  - reflexivity.
  - exact E.
Qed.

Lemma sanitize_sanitized s : sanitized s (sanitize s).
Proof.
  remember (length s) as n eqn:Hn.
  revert s Hn. induction n as [n IH] using lt_wf_ind. intros s Hn.
  destruct s as [|c s]; [constructor|].
  destruct (startswith TOKEN_EVERYONE (c :: s)) eqn:He.
  - pose proof (startswith_split _ _ He) as Hs.
    rewrite Hs at 1 2. rewrite sanitize_everyone. constructor.
    apply (IH (length (skipn (length TOKEN_EVERYONE) (c :: s)))); [|reflexivity].
    subst n. rewrite length_skipn. simpl. lia.
  - destruct (startswith TOKEN_HERE (c :: s)) eqn:Hh.
    + pose proof (startswith_split _ _ Hh) as Hs.
      rewrite Hs at 1 2. rewrite sanitize_here. constructor.
      apply (IH (length (skipn (length TOKEN_HERE) (c :: s)))); [|reflexivity].
      subst n. rewrite length_skipn. simpl. lia.
    + rewrite sanitize_other by assumption.
      constructor; try assumption.
      apply (IH (length s)); [subst n; simpl; lia|reflexivity].
Qed.

(** What [sanitize] returns begins, up to the first '@', like its input. *)
Lemma sanitized_prefix w s r :
  sanitized s r ->
  forallb (fun c => negb (c =? AT)%N) w = true ->
  startswith w r = true -> startswith w s = true.
Proof.
  intros H. revert w.
  induction H as [|s r _ _|s r _ _|c s r _ _ _ IH]; intros w Hw Hr.
  - exact Hr.
  - destruct w as [|x w]; [reflexivity|].
    simpl in Hw. apply andb_prop in Hw as [Hx _].
    change (SAFE_EVERYONE ++ r) with (AT :: (ZWSP :: py "everyone") ++ r) in Hr.
    rewrite startswith_cons in Hr. apply andb_prop in Hr as [Hr _].
    rewrite Hr in Hx. discriminate.
  - destruct w as [|x w]; [reflexivity|].
    simpl in Hw. apply andb_prop in Hw as [Hx _].
    change (SAFE_HERE ++ r) with (AT :: (ZWSP :: py "here") ++ r) in Hr.
    rewrite startswith_cons in Hr. apply andb_prop in Hr as [Hr _].
    rewrite Hr in Hx. discriminate.
  - destruct w as [|x w]; [reflexivity|].
    simpl in Hw, Hr |- *.
    apply andb_prop in Hw as [_ Hw]. apply andb_prop in Hr as [-> Hr].
    simpl. apply IH; assumption.
Qed.

(** Neither token starts in what [sanitize] returns. *)
Lemma sanitized_clean s r :
  sanitized s r ->
  contains TOKEN_EVERYONE r = false /\ contains TOKEN_HERE r = false.
Proof.
  induction 1 as [|s r _ [IHe IHh]|s r _ [IHe IHh]|c s r He Hh Hsr [IHe IHh]].
  - split; reflexivity.
  - change (SAFE_EVERYONE ++ r)
      with (64 :: 8203 :: 101 :: 118 :: 101 :: 114 :: 121 :: 111 :: 110 :: 101 :: r)%N.
    split; [rewrite <- IHe|rewrite <- IHh]; reflexivity.
  - change (SAFE_HERE ++ r) with (64 :: 8203 :: 104 :: 101 :: 114 :: 101 :: r)%N.
    split; [rewrite <- IHe|rewrite <- IHh]; reflexivity.
  - split.
    + change (contains TOKEN_EVERYONE (c :: r))
        with (startswith TOKEN_EVERYONE (c :: r) || contains TOKEN_EVERYONE r).
      rewrite IHe, orb_false_r.
      destruct (startswith TOKEN_EVERYONE (c :: r)) eqn:E; [|reflexivity].
      change TOKEN_EVERYONE with (AT :: py "everyone") in E, He.
      rewrite startswith_cons in E, He.
      apply andb_prop in E as [Hc E]. rewrite Hc, andb_true_l in He.
      rewrite (sanitized_prefix (py "everyone") s r Hsr eq_refl E) in He.
      discriminate.
    + change (contains TOKEN_HERE (c :: r))
        with (startswith TOKEN_HERE (c :: r) || contains TOKEN_HERE r).
      rewrite IHh, orb_false_r.
      destruct (startswith TOKEN_HERE (c :: r)) eqn:E; [|reflexivity].
      change TOKEN_HERE with (AT :: py "here") in E, Hh.
      rewrite startswith_cons in E, Hh.
      apply andb_prop in E as [Hc E]. rewrite Hc, andb_true_l in Hh.
      rewrite (sanitized_prefix (py "here") s r Hsr eq_refl E) in Hh.
      discriminate.
Qed.

(** Each replacement turns at least five code points into one more. *)
Lemma sanitized_length s r :
  sanitized s r -> length s <= length r /\ 5 * length r <= 6 * length s.
Proof.
  induction 1 as [|s r _ IH|s r _ IH|c s r _ _ _ IH];
    rewrite ?length_app; simpl; lia.
Qed.

Lemma sanitize_clean s :
  contains TOKEN_EVERYONE (sanitize s) = false /\
  contains TOKEN_HERE (sanitize s) = false.
Proof. apply (sanitized_clean s), sanitize_sanitized. Qed.

Lemma sanitize_length s :
  length s <= length (sanitize s) /\ 5 * length (sanitize s) <= 6 * length s.
Proof. apply sanitized_length, sanitize_sanitized. Qed.

End Sanitize.

(** ** The transcript *)

Section Transcript.

Implicit Types messages fetched : list message.

Lemma fold_append_message messages acc :
  fold_left append_message messages acc =
  acc ++ concat (map transcript_line (List.filter qualifies messages)).
Proof.
  revert acc. induction messages as [|m messages IH]; intros acc; simpl.
  - rewrite app_nil_r. reflexivity.
  - rewrite IH. unfold append_message, qualifies.
    destruct (keeps (strip (content m))); simpl.
    + rewrite <- app_assoc. reflexivity.
    + reflexivity.
Qed.

Lemma build_transcript_lines messages :
  build_transcript messages =
  rstrip [NL] (concat (map transcript_line (List.filter qualifies messages))).
Proof. unfold build_transcript. rewrite fold_append_message. reflexivity. Qed.

Lemma lstrip_by_suffix drop (s : pystr) :
  exists pre, s = pre ++ lstrip_by drop s.
Proof.
  induction s as [|c s [pre IH]]; simpl.
  - exists []. reflexivity.
  - destruct (drop c).
    + exists (c :: pre). simpl. f_equal. exact IH.
    + exists []. reflexivity.
Qed.

Lemma rstrip_by_prefix drop (s : pystr) :
  exists post, s = rstrip_by drop s ++ post.
Proof.
  unfold rstrip_by.
  destruct (lstrip_by_suffix drop (rev s)) as [pre Hpre].
  exists (rev pre).
  rewrite <- rev_app_distr, <- Hpre, rev_involutive. reflexivity.
Qed.

Lemma contains_rstrip p chars (s : pystr) :
  contains p s = false -> contains p (rstrip chars s) = false.
Proof.
  unfold rstrip. intros H.
  destruct (rstrip_by_prefix (fun c => existsb (N.eqb c) chars) s) as [post E].
  rewrite E in H. exact (contains_app_l _ _ _ H).
Qed.

Lemma qualifies_bounds m :
  qualifies m = true ->
  1 <= length (strip (content m)) <= 500.
Proof.
  unfold qualifies, keeps. intros H.
  apply andb_prop in H as [Ht Hl]. apply Nat.leb_le in Hl.
  destruct (strip (content m)); [discriminate|simpl in *; lia].
Qed.

(** A pattern without ':', ' ' and '\n' that occurs neither in the author
    names nor in the sanitized contents occurs nowhere in the lines. *)
Lemma contains_lines (p : pystr) messages :
  p <> [] ->
  forallb (fun c => negb (c =? 58)%N) p = true ->
  forallb (fun c => negb (c =? 32)%N) p = true ->
  forallb (fun c => negb (c =? NL)%N) p = true ->
  (forall s, contains p (sanitize s) = false) ->
  Forall (fun m => contains p (username m) = false) messages ->
  contains p (concat (map transcript_line messages)) = false.
Proof.
  intros Hp Hcolon Hspace Hnl Hsan Hnames.
  assert (contains p [] = false) as Hnil by (destruct p; [congruence|reflexivity]).
  induction Hnames as [|m messages Hm _ IH]; [exact Hnil|].
  change (concat (map transcript_line (m :: messages)))
    with (transcript_line m ++ concat (map transcript_line messages)).
  set (rest := concat (map transcript_line messages)) in *.
  assert (transcript_line m ++ rest =
          username m ++ 58%N :: ([] ++ 32%N ::
            (sanitize (strip (content m)) ++ NL :: rest))) as ->.
  { unfold transcript_line. change (py ": ") with [58%N; 32%N].
    rewrite <- !app_assoc. reflexivity. }
  rewrite (contains_sep p _ 58%N _ Hcolon), (contains_sep p _ 32%N _ Hspace),
    (contains_sep p _ NL _ Hnl).
  rewrite Hm, Hsan, IH, !orb_false_r. exact Hnil.
Qed.

End Transcript.

(** ** The handler monad *)

Section Hoare.

Context {A B : Type}.
Variable P : event -> Prop.

Lemma hoare_ret (a : A) (Q : A -> Prop) : Q a -> hoare P (ret a) Q.
Proof.
  intros Ha w tr Htr. split; [exact Htr|].
  intros a' E. injection E as <-. exact Ha.
Qed.

Lemma hoare_raise (e : exn) (Q : A -> Prop) : hoare P (raise e) Q.
Proof. intros w tr Htr. split; [exact Htr|]. intros a' E. discriminate. Qed.

Lemma hoare_bind (m : M A) (k : A -> M B) (Q : A -> Prop) (R : B -> Prop) :
  hoare P m Q -> (forall a, Q a -> hoare P (k a) R) -> hoare P (bind m k) R.
Proof.
  intros Hm Hk w tr Htr. unfold bind.
  destruct (Hm w tr Htr) as [Htr' Hval].
  destruct (m w tr) as [[a|e] tr']; simpl in *.
  - apply Hk; [apply Hval; reflexivity|exact Htr'].
  - split; [exact Htr'|]. intros b E. discriminate.
Qed.

Lemma hoare_try_except (m : M A) (h : exn -> M A) (Q : A -> Prop) :
  hoare P m Q -> (forall e, hoare P (h e) Q) -> hoare P (try_except m h) Q.
Proof.
  intros Hm Hh w tr Htr. unfold try_except.
  destruct (Hm w tr Htr) as [Htr' Hval].
  destruct (m w tr) as [[a|e] tr']; simpl in *.
  - split; [exact Htr'|]. exact Hval.
  - apply Hh. exact Htr'.
Qed.

Lemma hoare_attempt (m : M A) (Q : A -> Prop) (R : result A -> Prop) :
  hoare P m Q ->
  (forall a, Q a -> R (Ok a)) -> (forall e, R (Raise e)) ->
  hoare P (attempt m) R.
Proof.
  intros Hm Hok Hraise w tr Htr. unfold attempt.
  destruct (Hm w tr Htr) as [Htr' Hval].
  destruct (m w tr) as [r tr']; simpl in *.
  split; [exact Htr'|]. intros r' E. injection E as <-.
  destruct r as [a|e]; [apply Hok, Hval; reflexivity|apply Hraise].
Qed.

Lemma hoare_weaken (m : M A) (Q Q' : A -> Prop) :
  hoare P m Q -> (forall a, Q a -> Q' a) -> hoare P m Q'.
Proof.
  intros Hm HQ w tr Htr. destruct (Hm w tr Htr) as [Htr' Hval].
  split; [exact Htr'|]. intros a E. apply HQ, Hval, E.
Qed.

End Hoare.

Section HoareEffects.

Variable P : event -> Prop.

Lemma hoare_send via text (Q : unit -> Prop) :
  (forall d, P (EvSend via text d)) -> Q tt -> hoare P (send via text) Q.
Proof.
  intros Hev HQ w tr Htr. unfold send.
  destruct (send_outcome w (sends_so_far tr)); simpl.
  - split; [|intros a E; discriminate].
    apply Forall_app. split; [exact Htr|]. constructor; [apply Hev|constructor].
  - split; [|intros []; intros _; exact HQ].
    apply Forall_app. split; [exact Htr|]. constructor; [apply Hev|constructor].
Qed.

Lemma hoare_typing : P EvTyping -> hoare P typing (fun _ => True).
Proof.
  intros Hev w tr Htr. unfold typing.
  destruct (typing_outcome w); (split; [|intros; exact I]); simpl;
    apply Forall_app; (split; [exact Htr|]);
    (constructor; [exact Hev|constructor]).
Qed.

Lemma hoare_history limit :
  P (EvFetch limit) -> hoare P (history limit) (fun _ => True).
Proof.
  intros Hev w tr Htr. split; [|intros; exact I]. simpl.
  apply Forall_app. split; [exact Htr|]. constructor; [exact Hev|constructor].
Qed.

Lemma hoare_chain_invoke t :
  P (EvInvoke t) -> hoare P (chain_invoke t) (fun _ => True).
Proof.
  intros Hev w tr Htr. split; [|intros; exact I]. simpl.
  apply Forall_app. split; [exact Htr|]. constructor; [exact Hev|constructor].
Qed.

Lemma hoare_log_request ctx : hoare P (log_request ctx) (fun _ => True).
Proof.
  unfold log_request. destruct (guild_name ctx).
  - apply hoare_ret. exact I.
  - apply hoare_raise.
Qed.

End HoareEffects.

(** ** The transcript builder: claims C1 and C4 *)

Section TranscriptClaims.

Import Samples.

(** C1, counterexample: the author name is copied into the transcript as it
    is, so a member whose display name is [@everyone] puts the raw token
    into the transcript. *)
Lemma transcript_keeps_token_of_author_name :
  build_transcript (rev [mention_in_name]) = py "@everyone: hi" /\
  contains TOKEN_EVERYONE (build_transcript (rev [mention_in_name])) = true.
Proof. split; reflexivity. Qed.

(** C1, as amended: in the content of every message each raw token
    [@everyone] and [@here] is replaced by its variant with a zero-width
    space, so no content that enters the transcript holds a raw token; and
    the transcript as a whole holds no raw token whenever no author name
    holds one. *)
Theorem transcript_tokens_neutralized (fetched : list message) :
  (forall content,
      sanitized content (sanitize content) /\
      contains TOKEN_EVERYONE (sanitize content) = false /\
      contains TOKEN_HERE (sanitize content) = false) /\
  (Forall (fun m => contains TOKEN_EVERYONE (username m) = false /\
                    contains TOKEN_HERE (username m) = false) fetched ->
   contains TOKEN_EVERYONE (build_transcript (rev fetched)) = false /\
   contains TOKEN_HERE (build_transcript (rev fetched)) = false).
Proof.
  split.
  - intros c. split; [apply sanitize_sanitized|apply sanitize_clean].
  - intros Hnames.
    assert (forall p, Forall (fun m => contains p (username m) = false) fetched ->
                      Forall (fun m => contains p (username m) = false)
                             (List.filter qualifies (rev fetched))) as Hkept.
    { intros p H. apply List.Forall_forall. intros m Hm.
      apply List.filter_In in Hm as [Hm _]. apply in_rev in Hm.
      revert m Hm. apply List.Forall_forall. exact H. }
    rewrite build_transcript_lines. split; apply contains_rstrip.
    + apply contains_lines; try reflexivity; try discriminate.
      * intros c. apply sanitize_clean.
      * apply Hkept. eapply List.Forall_impl; [|exact Hnames]. intros m [H _]. exact H.
    + apply contains_lines; try reflexivity; try discriminate.
      * intros c. apply sanitize_clean.
      * apply Hkept. eapply List.Forall_impl; [|exact Hnames]. intros m [_ H]. exact H.
Qed.

Lemma transcript_tokens_neutralized_witness :
  contains TOKEN_EVERYONE
    (build_transcript (rev [alice_says_here; bob_says_everyone])) = false /\
  contains TOKEN_HERE
    (build_transcript (rev [alice_says_here; bob_says_everyone])) = false.
Proof.
  apply (proj2 (transcript_tokens_neutralized [alice_says_here; bob_says_everyone])).
  repeat constructor.
Defined.

(** C4, counterexample: the bound of 500 is checked before the tokens are
    neutralised and each replacement adds one code point, so a message of
    one hundred [@here] (500 code points) enters the transcript with a
    content of 600 code points; and a message of two lines gives a
    transcript of two lines out of one message. *)
Lemma transcript_content_exceeds_500 :
  (length (strip (content hundred_mentions)) = 500 /\
   build_transcript (rev [hundred_mentions]) =
     py "bob: " ++ concat (repeat SAFE_HERE 100) /\
   length (concat (repeat SAFE_HERE 100)) = 600) /\
  (length (split NL (build_transcript (rev [two_line_message]))) = 2 /\
   length [two_line_message] = 1).
Proof. repeat split; vm_compute; reflexivity. Qed.

(** C4, as amended: the transcript of N fetched messages is made of at most
    N entries ["name: content\n"], one for each message whose trimmed
    content is non-empty and at most 500 code points long (the others are
    dropped entirely, none is truncated), in chronological order, that is
    in the reverse of the order of the fetch, with the final newlines
    removed; the content of an entry is the trimmed content with its tokens
    neutralised, at least as long as the trimmed content and at most 600
    code points long. *)
Theorem transcript_entries (fetched : list message) :
  let kept := List.filter qualifies (rev fetched) in
  build_transcript (rev fetched) =
    rstrip [NL] (concat (map transcript_line kept)) /\
  length kept <= length fetched /\
  Forall (fun m =>
            1 <= length (strip (content m)) <= 500 /\
            length (strip (content m)) <= length (sanitize (strip (content m))) /\
            length (sanitize (strip (content m))) <= 600) kept.
Proof.
  intros kept. split; [apply build_transcript_lines|]. split.
  - unfold kept. rewrite <- (length_rev fetched). apply List.filter_length_le.
  - apply List.Forall_forall. intros m Hm.
    apply List.filter_In in Hm as [_ Hq].
    pose proof (qualifies_bounds m Hq) as Hb.
    pose proof (sanitize_length (strip (content m))) as Hs.
    lia.
Qed.

End TranscriptClaims.

(** ** The recommendation client *)

Section Client.

Implicit Types (w : env) (tr : trace) (t response : pystr).

Lemma length_truncation_marker : length truncation_marker = 24.
Proof. reflexivity. Qed.

Lemma clamp_response_length response :
  length (clamp_response response) <= MAX_MESSAGE_LENGTH.
Proof.
  unfold clamp_response, slice_to.
  destruct (Nat.ltb_spec MAX_MESSAGE_LENGTH (length response)) as [H|H].
  - rewrite length_app, length_firstn, length_truncation_marker.
    unfold MAX_MESSAGE_LENGTH in *. lia.
  - exact H.
Qed.

Lemma clamp_response_nonempty response :
  truthy (clamp_response response) = truthy response.
Proof.
  unfold clamp_response.
  destruct (Nat.ltb_spec MAX_MESSAGE_LENGTH (length response)) as [H|H];
    [|reflexivity].
  destruct response as [|c response]; [simpl in H; lia|reflexivity].
Qed.

(** The client calls the chain once and always returns. *)
Lemma process_schedule_request_runs t w tr :
  process_schedule_request t w tr =
  (Ok match chain_outcome w t with
      | Ok response => clamp_response response
      | Raise _ => analysis_error_msg
      end,
   tr ++ [EvInvoke t]).
Proof.
  unfold process_schedule_request, try_except, bind, chain_invoke, ret.
  destruct (chain_outcome w t); reflexivity.
Qed.

Lemma process_schedule_request_answer t w tr :
  exists s,
    process_schedule_request t w tr = (Ok s, tr ++ [EvInvoke t]) /\
    length s <= MAX_MESSAGE_LENGTH.
Proof.
  rewrite process_schedule_request_runs.
  eexists. split; [reflexivity|].
  destruct (chain_outcome w t).
  - apply clamp_response_length.
  - vm_compute. lia.
Qed.

End Client.

(** ** The command handler *)

Section Handler.

Implicit Types (w : env) (tr : trace) (ctx : context).

Ltac notice :=
  intros; apply handler_notice; unfold notices;
  repeat (first [left; reflexivity | right]).

Lemma hoare_attempt_client (P : event -> Prop) (t : pystr) :
  P (EvInvoke t) ->
  hoare P (attempt (process_schedule_request t))
        (fun r => exists s, r = Ok s /\ length s <= MAX_MESSAGE_LENGTH).
Proof.
  intros Hev w tr Htr. unfold attempt.
  destruct (process_schedule_request_answer t w tr) as [s [E Hs]].
  rewrite E. simpl. split.
  - apply Forall_app. split; [exact Htr|]. constructor; [exact Hev|constructor].
  - intros r Er. injection Er as <-. exists s. split; [reflexivity|exact Hs].
Qed.

Lemma schedule_handlers_events e :
  hoare handler_event (schedule_handlers e) (fun _ => True).
Proof. destruct e; apply hoare_send; try exact I; notice. Qed.

Lemma schedule_body_events ctx :
  hoare handler_event (schedule_body ctx) (fun _ => True).
Proof.
  unfold schedule_body.
  apply (hoare_bind _ _ _ (fun _ => True)).
  { apply (hoare_attempt _ _ (fun _ => True)); try (intros; exact I).
    unfold fetch_messages. apply hoare_history. constructor. }
  intros [[|m messages]|e] _.
  - apply hoare_send; [notice|exact I].
  - cbv zeta.
    destruct (truthy (build_transcript (rev (m :: messages)))) eqn:Ht;
      cbn [negb].
    + apply (hoare_bind _ _ _ (fun _ => True)); [apply hoare_log_request|].
      intros _ _.
      eapply hoare_bind; [apply hoare_attempt_client; constructor; exact Ht|].
      intros r [s [-> Hs]]. cbv beta iota.
      destruct (truthy s) eqn:Hne.
      * apply hoare_send; [|exact I]. intros d. constructor; assumption.
      * apply hoare_send; [notice|exact I].
    + apply hoare_send; [notice|exact I].
  - destruct e; try apply hoare_raise. apply hoare_send; [notice|exact I].
Qed.

(** Every event of an invocation is one of [handler_event]. *)
Lemma schedule_meet_events ctx w :
  Forall handler_event (snd (run (schedule_meet ctx) w)).
Proof.
  assert (hoare handler_event (schedule_meet ctx) (fun _ => True)) as H.
  { unfold schedule_meet. destruct (negb (action_is_meet (action ctx))).
    - apply hoare_send; [notice|exact I].
    - apply (hoare_bind _ _ _ (fun _ => True)).
      + apply hoare_typing. constructor.
      + intros _ _. apply hoare_try_except.
        * apply schedule_body_events.
        * apply schedule_handlers_events. }
  apply H. constructor.
Qed.

Lemma handler_event_within_limit ev : handler_event ev -> within_limit ev.
Proof.
  intros [| |t _|text d _ H|text d H]; simpl; try exact I; try exact H.
  unfold notices in H. simpl In in H.
  repeat (destruct H as [<-|H]; [vm_compute; lia|]). contradiction.
Qed.

Lemma streq_eq (a b : pystr) : streq a b = true <-> a = b.
Proof.
  revert b. induction a as [|x a IH]; intros [|y b]; simpl;
    try (split; [discriminate|congruence]); [tauto|].
  rewrite andb_true_iff, N.eqb_eq, IH. split; [intros [-> ->]|intros [= -> ->]]; auto.
Qed.

Lemma action_is_meet_iff (a : option pystr) :
  action_is_meet a = true <-> a = Some (py "meet").
Proof.
  destruct a as [s|]; simpl; [|split; discriminate].
  rewrite streq_eq. split; [intros ->|intros [= ->]]; reflexivity.
Qed.

End Handler.

(** ** Runs of the handler *)

Section Runs.

Implicit Types (w : env) (tr : trace) (ctx : context).

Lemma schedule_handlers_trace e w tr :
  exists text d, snd (schedule_handlers e w tr) = tr ++ [EvSend ViaCtx text d].
Proof.
  destruct e; unfold schedule_handlers, send;
    destruct (send_outcome w (sends_so_far tr)); simpl; eauto.
Qed.

(** A posting under the outer [try]: it is the first posting of the
    invocation; when it fails, one notice of the outer handlers follows it
    and nothing else. *)
Lemma guarded_send via text w tr :
  sends_so_far tr = 0 ->
  (exists d rest,
      snd (try_except (send via text) schedule_handlers w tr)
      = tr ++ EvSend via text d :: rest /\
      List.filter is_invoke rest = [] /\ List.filter is_fetch rest = []) /\
  (send_outcome w 0 = None ->
   try_except (send via text) schedule_handlers w tr
   = (Ok tt, tr ++ [EvSend via text true])).
Proof.
  intros H0. unfold try_except, send. rewrite H0.
  destruct (send_outcome w 0) as [e|]; split; try discriminate.
  - destruct (schedule_handlers_trace e w (tr ++ [EvSend via text false]))
      as [text' [d' E]].
    exists false, [EvSend ViaCtx text' d']. rewrite E, <- app_assoc.
    repeat split.
  - exists true, []. repeat split.
  - reflexivity.
Qed.

(** The handler up to the end of the fetch. *)
Lemma schedule_meet_fetches ctx w :
  action_is_meet (action ctx) = true ->
  typing_outcome w = None ->
  run (schedule_meet ctx) w =
  try_except
    (match fetch_outcome w with
     | Raise TimeoutError => send ViaCtx timeout_msg
     | Raise e => raise e
     | Ok [] => send ViaCtx no_messages_msg
     | Ok (m :: messages) =>
         let messages_string := build_transcript (rev (m :: messages)) in
         if negb (truthy messages_string)
         then send ViaCtx no_valid_messages_msg
         else
           log_request ctx ;;
           outcome <- attempt (process_schedule_request messages_string) ;;
           match outcome with
           | Raise _ => send ViaCtx trouble_msg
           | Ok response =>
               if truthy response
               then send ViaChannel response
               else send ViaCtx no_response_msg
           end
     end)
    schedule_handlers w [EvTyping; EvFetch 20].
Proof.
  intros Hact Htyping. unfold run, schedule_meet. rewrite Hact.
  cbv beta iota delta [negb bind try_except typing schedule_body attempt
                         fetch_messages history].
  rewrite Htyping.
  destruct (fetch_outcome w) as [[|m messages]|[]]; reflexivity.
Qed.

Lemma all_filtered_transcript (messages : list message) :
  Forall (fun m => strip (content m) = [] \/ 500 < length (strip (content m)))
         messages ->
  build_transcript messages = [].
Proof.
  intros H. rewrite build_transcript_lines.
  assert (List.filter qualifies messages = []) as ->; [|reflexivity].
  induction H as [|m messages Hm _ IH]; [reflexivity|].
  simpl. rewrite IH.
  assert (qualifies m = false) as ->; [|reflexivity].
  unfold qualifies, keeps. destruct Hm as [->|Hm]; [reflexivity|].
  apply andb_false_iff. right. apply Nat.leb_gt. exact Hm.
Qed.

End Runs.

(** ** The claims on the client and on the handler *)

Section HandlerClaims.

Import Samples.

Implicit Types (w : env) (tr : trace) (ctx : context).

(** C2: when the chain answers with a text longer than 2000 code points,
    [process_schedule_request] returns its first 1950 code points followed
    by the truncation marker; an answer of at most 2000 code points is
    returned unchanged. *)
Theorem process_schedule_request_clamps w tr (messages_string response : pystr) :
  chain_outcome w messages_string = Ok response ->
  (MAX_MESSAGE_LENGTH < length response ->
   fst (process_schedule_request messages_string w tr)
   = Ok (firstn 1950 response ++ truncation_marker) /\
   length (firstn 1950 response) = 1950) /\
  (length response <= MAX_MESSAGE_LENGTH ->
   fst (process_schedule_request messages_string w tr) = Ok response).
Proof.
  intros Hchain. rewrite process_schedule_request_runs, Hchain.
  unfold clamp_response, slice_to. cbn [fst].
  split; intros Hlen.
  - apply Nat.ltb_lt in Hlen as Hlt. rewrite Hlt. split; [reflexivity|].
    rewrite length_firstn. unfold MAX_MESSAGE_LENGTH in Hlen. lia.
  - apply Nat.ltb_ge in Hlen. rewrite Hlen. reflexivity.
Qed.

Lemma process_schedule_request_clamps_witness :
  (fst (process_schedule_request (py "bob: hi") (quiet (Ok []) (Ok long_reply)) [])
   = Ok (firstn 1950 long_reply ++ truncation_marker) /\
   length (firstn 1950 long_reply) = 1950) /\
  fst (process_schedule_request (py "bob: hi") (quiet (Ok []) (Ok (py "Mon 5pm"))) [])
  = Ok (py "Mon 5pm").
Proof.
  split.
  - apply (proj1 (process_schedule_request_clamps
                    (quiet (Ok []) (Ok long_reply)) [] (py "bob: hi") long_reply
                    eq_refl)).
    vm_compute. lia.
  - apply (proj2 (process_schedule_request_clamps
                    (quiet (Ok []) (Ok (py "Mon 5pm"))) [] (py "bob: hi")
                    (py "Mon 5pm") eq_refl)).
    vm_compute. lia.
Defined.

(** C3: whatever the chain returns, the clamp leaves at most 2000 code
    points, and every text the handler posts, the reply and each of its
    notices, has at most 2000 code points. *)
Theorem posted_text_within_limit w ctx :
  (forall response, length (clamp_response response) <= MAX_MESSAGE_LENGTH) /\
  Forall within_limit (snd (run (schedule_meet ctx) w)).
Proof.
  split; [apply clamp_response_length|].
  eapply List.Forall_impl; [|apply schedule_meet_events].
  apply handler_event_within_limit.
Qed.

(** C5: when the fetch returns no message, the handler posts the
    "no messages found" notice as its first and, when the posting succeeds,
    only message, returns, and never calls the chain.  An invocation
    reaches the fetch when its action is [meet] and the typing request of
    line 102 succeeded. *)
Theorem no_messages_stops w ctx :
  action ctx = Some (py "meet") ->
  typing_outcome w = None ->
  fetch_outcome w = Ok [] ->
  (exists d rest,
      snd (run (schedule_meet ctx) w)
      = [EvTyping; EvFetch 20] ++ EvSend ViaCtx no_messages_msg d :: rest /\
      List.filter is_invoke rest = []) /\
  List.filter is_invoke (snd (run (schedule_meet ctx) w)) = [] /\
  (send_outcome w 0 = None ->
   run (schedule_meet ctx) w
   = (Ok tt, [EvTyping; EvFetch 20; EvSend ViaCtx no_messages_msg true])).
Proof.
  intros Hact Htyping Hfetch. apply action_is_meet_iff in Hact.
  rewrite (schedule_meet_fetches ctx w Hact Htyping), Hfetch.
  destruct (guarded_send ViaCtx no_messages_msg w [EvTyping; EvFetch 20] eq_refl)
    as [[d [rest [E [Hinv _]]]] Hok].
  split; [exists d, rest; split; assumption|]. split; [|exact Hok].
  rewrite E, List.filter_app. simpl. exact Hinv.
Qed.

Lemma no_messages_stops_witness :
  run (schedule_meet meet_ctx) (quiet (Ok []) (Ok (py "Mon 5pm")))
  = (Ok tt, [EvTyping; EvFetch 20; EvSend ViaCtx no_messages_msg true]).
Proof.
  apply (proj2 (proj2 (no_messages_stops (quiet (Ok []) (Ok (py "Mon 5pm")))
                         meet_ctx eq_refl eq_refl eq_refl))).
  reflexivity.
Defined.

(** C6: when at least one message is fetched and every fetched message has
    a trimmed content that is empty or longer than 500, the handler posts
    the "no valid messages found" notice as its first and, when the posting
    succeeds, only message, returns, and never calls the chain.  (With no
    message fetched at all the notice is that of C5.)  An invocation
    reaches the fetch when its action is [meet] and the typing request of
    line 102 succeeded. *)
Theorem no_valid_messages_stops w ctx (fetched : list message) :
  action ctx = Some (py "meet") ->
  typing_outcome w = None ->
  fetch_outcome w = Ok fetched ->
  fetched <> [] ->
  Forall (fun m => strip (content m) = [] \/ 500 < length (strip (content m)))
         fetched ->
  (exists d rest,
      snd (run (schedule_meet ctx) w)
      = [EvTyping; EvFetch 20] ++ EvSend ViaCtx no_valid_messages_msg d :: rest /\
      List.filter is_invoke rest = []) /\
  List.filter is_invoke (snd (run (schedule_meet ctx) w)) = [] /\
  (send_outcome w 0 = None ->
   run (schedule_meet ctx) w
   = (Ok tt, [EvTyping; EvFetch 20; EvSend ViaCtx no_valid_messages_msg true])).
Proof.
  intros Hact Htyping Hfetch Hne Hall. apply action_is_meet_iff in Hact.
  rewrite (schedule_meet_fetches ctx w Hact Htyping), Hfetch.
  destruct fetched as [|m messages]; [congruence|].
  cbv zeta. rewrite all_filtered_transcript.
  2:{ apply List.Forall_forall. intros x Hx. apply in_rev in Hx.
      revert x Hx. apply List.Forall_forall. exact Hall. }
  cbn [truthy negb].
  destruct (guarded_send ViaCtx no_valid_messages_msg w [EvTyping; EvFetch 20] eq_refl)
    as [[d [rest [E [Hinv _]]]] Hok].
  split; [exists d, rest; split; assumption|]. split; [|exact Hok].
  rewrite E, List.filter_app. simpl. exact Hinv.
Qed.

Lemma no_valid_messages_stops_witness :
  run (schedule_meet meet_ctx)
      (quiet (Ok [blank_message; hundred_mentions_and_one]) (Ok (py "Mon 5pm")))
  = (Ok tt, [EvTyping; EvFetch 20; EvSend ViaCtx no_valid_messages_msg true]).
Proof.
  apply (proj2 (proj2 (no_valid_messages_stops
                         (quiet (Ok [blank_message; hundred_mentions_and_one])
                                (Ok (py "Mon 5pm")))
                         meet_ctx [blank_message; hundred_mentions_and_one]
                         eq_refl eq_refl eq_refl ltac:(discriminate)
                         ltac:(repeat constructor; vm_compute; lia)))).
  reflexivity.
Defined.

(** C7: when the sub-action is not the literal [meet], an absent one
    included, the handler posts the usage notice and returns; it fetches
    nothing and does not call the chain. *)
Theorem wrong_action_stops w ctx :
  action ctx <> Some (py "meet") ->
  (exists d, snd (run (schedule_meet ctx) w) = [EvSend ViaCtx usage_msg d]) /\
  List.filter is_fetch (snd (run (schedule_meet ctx) w)) = [] /\
  List.filter is_invoke (snd (run (schedule_meet ctx) w)) = [].
Proof.
  intros Hact.
  assert (action_is_meet (action ctx) = false) as E.
  { destruct (action_is_meet (action ctx)) eqn:E; [|reflexivity].
    apply action_is_meet_iff in E. contradiction. }
  unfold run, schedule_meet, send. rewrite E. cbn [negb sends_so_far List.filter length].
  destruct (send_outcome w 0); simpl; eauto.
Qed.

Lemma wrong_action_stops_witness :
  (exists d, snd (run (schedule_meet sync_ctx) (quiet (Ok [alice_says_here]) (Ok (py "Mon 5pm"))))
             = [EvSend ViaCtx usage_msg d]) /\
  (exists d, snd (run (schedule_meet (Context None None)) (quiet (Ok [alice_says_here]) (Ok (py "Mon 5pm"))))
             = [EvSend ViaCtx usage_msg d]).
Proof.
  split.
  - apply (wrong_action_stops (quiet (Ok [alice_says_here]) (Ok (py "Mon 5pm"))) sync_ctx).
    discriminate.
  - apply (wrong_action_stops (quiet (Ok [alice_says_here]) (Ok (py "Mon 5pm")))
                              (Context None None)).
    discriminate.
Defined.

End HandlerClaims.

(** ** Failure of the model call and totality of the client: C8 and C10 *)

Section ClientClaims.

Import Samples.

Implicit Types (w : env) (tr : trace) (ctx : context).

Lemma posted_app (a b : trace) : posted (a ++ b) = posted a ++ posted b.
Proof. unfold posted. apply flat_map_app. Qed.

(** Under the outer [try] at most one posting is delivered. *)
Lemma guarded_send_delivered via text w tr :
  sends_so_far tr = 0 ->
  length (List.filter snd
            (posted (snd (try_except (send via text) schedule_handlers w tr))))
  <= length (List.filter snd (posted tr)) + 1.
Proof.
  intros H0. unfold try_except, send. rewrite H0.
  destruct (send_outcome w 0) as [e|]; cbn [snd].
  - destruct (schedule_handlers_trace e w (tr ++ [EvSend via text false]))
      as [text' [d' E]].
    rewrite E, !posted_app, !List.filter_app, !length_app.
    destruct d'; simpl; lia.
  - rewrite posted_app, List.filter_app, length_app. simpl. lia.
Qed.

(** The handler from the end of the fetch to the reply, when the transcript
    is not empty and the command was sent in a guild. *)
Lemma schedule_meet_replies ctx w (m : message) (messages : list message) :
  action_is_meet (action ctx) = true ->
  typing_outcome w = None ->
  guild_name ctx <> None ->
  fetch_outcome w = Ok (m :: messages) ->
  truthy (build_transcript (rev (m :: messages))) = true ->
  let t := build_transcript (rev (m :: messages)) in
  let response := match chain_outcome w t with
                  | Ok response => clamp_response response
                  | Raise _ => analysis_error_msg
                  end in
  run (schedule_meet ctx) w =
  try_except
    (if truthy response
     then send ViaChannel response
     else send ViaCtx no_response_msg)
    schedule_handlers w [EvTyping; EvFetch 20; EvInvoke t].
Proof.
  intros Hact Htyping Hguild Hfetch Ht t response.
  rewrite (schedule_meet_fetches ctx w Hact Htyping), Hfetch.
  cbv zeta. rewrite Ht. cbn [negb].
  unfold try_except at 1, bind, log_request, attempt.
  destruct (guild_name ctx); [|congruence].
  unfold ret. rewrite process_schedule_request_runs.
  reflexivity.
Qed.

(** C8, counterexample: when the call of the chain fails, the one message
    posted is the text of line 56, "Sorry, I encountered an error while
    analyzing the conversation. Please try again later."; it does not hold
    the words "trouble analyzing", which only the text of line 153
    holds. *)
Lemma model_failure_text_is_not_trouble_analyzing :
  run (schedule_meet meet_ctx) (quiet (Ok [bob_says_everyone]) (Raise OtherException))
  = (Ok tt, [EvTyping; EvFetch 20;
             EvInvoke (build_transcript (rev [bob_says_everyone]));
             EvSend ViaChannel analysis_error_msg true]) /\
  contains (py "trouble analyzing") analysis_error_msg = false /\
  contains (py "trouble analyzing") trouble_msg = true /\
  analysis_error_msg <> trouble_msg.
Proof. repeat split; try reflexivity. vm_compute. discriminate. Qed.

(** C8, as amended: when the call of the chain fails, the client has
    called it once, catches the failure and returns the fixed error text of
    line 56 ("Sorry, I encountered an error while analyzing the
    conversation. Please try again later.", which does not hold the words
    "trouble analyzing"); in an invocation that reached the chain the
    handler then posts that text through [channel.send], the chain has been
    called exactly once, at most one posting is delivered, and when the
    posting succeeds this text is the only message of the invocation. *)
Theorem model_failure_reported w (t : pystr) (e : exn) :
  chain_outcome w t = Raise e ->
  (forall tr,
      process_schedule_request t w tr = (Ok analysis_error_msg, tr ++ [EvInvoke t])) /\
  contains (py "trouble analyzing") analysis_error_msg = false /\
  (forall ctx fetched,
      action ctx = Some (py "meet") ->
      typing_outcome w = None ->
      guild_name ctx <> None ->
      fetch_outcome w = Ok fetched ->
      build_transcript (rev fetched) = t ->
      t <> [] ->
      (exists d rest,
          snd (run (schedule_meet ctx) w)
          = [EvTyping; EvFetch 20; EvInvoke t]
              ++ EvSend ViaChannel analysis_error_msg d :: rest /\
          List.filter is_invoke rest = []) /\
      length (List.filter snd (posted (snd (run (schedule_meet ctx) w)))) <= 1 /\
      (send_outcome w 0 = None ->
       run (schedule_meet ctx) w
       = (Ok tt, [EvTyping; EvFetch 20; EvInvoke t;
                  EvSend ViaChannel analysis_error_msg true]))).
Proof.
  intros Hchain. split; [|split; [reflexivity|]].
  - intros tr. rewrite process_schedule_request_runs, Hchain. reflexivity.
  - intros ctx fetched Hact Htyping Hguild Hfetch Ht Hne.
    apply action_is_meet_iff in Hact.
    destruct fetched as [|m messages]; [subst t; contradiction Hne; reflexivity|].
    assert (truthy (build_transcript (rev (m :: messages))) = true) as Htruthy.
    { rewrite Ht. destruct t; [congruence|reflexivity]. }
    rewrite (schedule_meet_replies ctx w m messages Hact Htyping Hguild Hfetch Htruthy).
    cbv zeta. rewrite Ht, Hchain.
    change (truthy analysis_error_msg) with true. cbv iota.
    destruct (guarded_send ViaChannel analysis_error_msg w
                [EvTyping; EvFetch 20; EvInvoke t] eq_refl)
      as [[d [rest [E [Hinv _]]]] Hok].
    split; [exists d, rest; split; assumption|]. split; [|exact Hok].
    apply (guarded_send_delivered ViaChannel analysis_error_msg w
             [EvTyping; EvFetch 20; EvInvoke t] eq_refl).
Qed.

Lemma model_failure_reported_witness :
  run (schedule_meet meet_ctx) (quiet (Ok [bob_says_everyone]) (Raise OtherException))
  = (Ok tt, [EvTyping; EvFetch 20;
             EvInvoke (build_transcript (rev [bob_says_everyone]));
             EvSend ViaChannel analysis_error_msg true]).
Proof.
  apply (proj2 (proj2 (model_failure_reported
                  (quiet (Ok [bob_says_everyone]) (Raise OtherException))
                  (build_transcript (rev [bob_says_everyone])) OtherException
                  eq_refl))
               meet_ctx [bob_says_everyone] eq_refl eq_refl ltac:(discriminate)
               eq_refl eq_refl ltac:(vm_compute; discriminate)).
  reflexivity.
Defined.

(** C10, counterexample: when the chain succeeds with an empty text, the
    client returns the empty string, and the handler posts the
    "couldn't generate a response" notice instead of a reply. *)
Lemma empty_answer_returned_empty :
  fst (process_schedule_request (py "bob: hi") (quiet (Ok []) (Ok [])) []) = Ok [] /\
  run (schedule_meet meet_ctx) (quiet (Ok [bob_says_everyone]) (Ok []))
  = (Ok tt, [EvTyping; EvFetch 20;
             EvInvoke (build_transcript (rev [bob_says_everyone]));
             EvSend ViaCtx no_response_msg true]).
Proof. split; reflexivity. Qed.

(** C10, as amended: [process_schedule_request] is total: for every
    transcript and every outcome of the chain it calls the chain once,
    returns a string and never raises.  The string is empty exactly when
    the chain succeeds with an empty text, and non-empty in every other
    case.  Consequently the handler never posts the "having trouble
    analyzing" notice of the exception branch around the call, and what it
    posts through [channel.send] is never empty.  In an invocation that
    reaches the call, the first posting after it is the returned string
    through [channel.send] when the string is not empty, and the
    "couldn't generate a response" notice through [ctx.send] when it is
    empty; when that posting succeeds it is the only one and the handler
    returns. *)
Theorem process_schedule_request_total w (t : pystr) tr ctx :
  (exists s,
      process_schedule_request t w tr = (Ok s, tr ++ [EvInvoke t]) /\
      truthy s = match chain_outcome w t with
                 | Ok response => truthy response
                 | Raise _ => true
                 end) /\
  Forall (fun ev => match ev with
                    | EvSend ViaCtx text _ => text <> trouble_msg
                    | EvSend ViaChannel text _ => truthy text = true
                    | _ => True
                    end) (snd (run (schedule_meet ctx) w)) /\
  (forall fetched,
      action ctx = Some (py "meet") ->
      typing_outcome w = None ->
      guild_name ctx <> None ->
      fetch_outcome w = Ok fetched ->
      build_transcript (rev fetched) <> [] ->
      let transcript := build_transcript (rev fetched) in
      let returned := match chain_outcome w transcript with
                      | Ok response => clamp_response response
                      | Raise _ => analysis_error_msg
                      end in
      let via := if truthy returned then ViaChannel else ViaCtx in
      let text := if truthy returned then returned else no_response_msg in
      fst (process_schedule_request transcript w [EvTyping; EvFetch 20])
      = Ok returned /\
      (exists d rest,
          snd (run (schedule_meet ctx) w)
          = [EvTyping; EvFetch 20; EvInvoke transcript]
              ++ EvSend via text d :: rest /\
          List.filter is_invoke rest = []) /\
      (send_outcome w 0 = None ->
       run (schedule_meet ctx) w
       = (Ok tt, [EvTyping; EvFetch 20; EvInvoke transcript;
                  EvSend via text true]))).
Proof.
  split; [|split].
  - rewrite process_schedule_request_runs. eexists. split; [reflexivity|].
    destruct (chain_outcome w t); [apply clamp_response_nonempty|reflexivity].
  - eapply List.Forall_impl; [|apply schedule_meet_events].
    intros ev [| |t' _|text d H _|text d H]; try exact I; try exact H.
    unfold notices in H. simpl In in H.
    repeat (destruct H as [<-|H]; [intros E; vm_compute in E; discriminate E|]).
    contradiction.
  - intros fetched Hact Htyping Hguild Hfetch Hne transcript returned via text.
    apply action_is_meet_iff in Hact.
    split; [rewrite process_schedule_request_runs; reflexivity|].
    destruct fetched as [|m messages]; [contradiction Hne; reflexivity|].
    assert (truthy (build_transcript (rev (m :: messages))) = true) as Ht.
    { destruct (build_transcript (rev (m :: messages)));
        [contradiction Hne|]; reflexivity. }
    rewrite (schedule_meet_replies ctx w m messages Hact Htyping Hguild Hfetch Ht).
    cbv zeta. fold transcript. fold returned.
    assert ((if truthy returned
             then send ViaChannel returned
             else send ViaCtx no_response_msg) = send via text) as ->
      by (unfold via, text; destruct (truthy returned); reflexivity).
    destruct (guarded_send via text w
                [EvTyping; EvFetch 20; EvInvoke transcript] eq_refl)
      as [[d [rest [E [Hinv _]]]] Hok].
    split; [exists d, rest; split; assumption|exact Hok].
Qed.

Lemma process_schedule_request_total_witness :
  run (schedule_meet meet_ctx) (quiet (Ok [bob_says_everyone]) (Ok (py "Mon 5pm")))
  = (Ok tt, [EvTyping; EvFetch 20;
             EvInvoke (build_transcript (rev [bob_says_everyone]));
             EvSend ViaChannel (py "Mon 5pm") true]).
Proof.
  apply (proj2 (proj2 (proj2 (proj2 (process_schedule_request_total
                         (quiet (Ok [bob_says_everyone]) (Ok (py "Mon 5pm")))
                         [] [] meet_ctx))
                 [bob_says_everyone] eq_refl eq_refl ltac:(discriminate) eq_refl
                 ltac:(vm_compute; discriminate)))).
  reflexivity.
Defined.

End ClientClaims.

(** ** The cooldown: C9 *)

Section Cooldown.

Import Samples.

Implicit Types (cooldowns : gmap Z pyfloat) (channel : Z) (ctx : context)
         (x : pyfloat).

Lemma fden_pos x : (0 < fden x)%Z.
Proof. unfold fden. apply Z.pow_pos_nonneg; lia. Qed.

Lemma cooldown_check_accepts cooldowns channel (now : pyfloat) :
  fst (cooldown_check cooldowns channel now) = None ->
  cooldown_check cooldowns channel now = (None, <[channel := now]> cooldowns).
Proof.
  unfold cooldown_check.
  destruct (cooldowns !! channel) as [opened|]; [|reflexivity].
  cbv zeta. destruct (flt (fsub now opened) COOLDOWN_PER);
    [discriminate|reflexivity].
Qed.

Lemma dispatch_schedule_cooldowns cooldowns channel (now : pyfloat) ctx :
  snd (dispatch_schedule cooldowns channel now ctx)
  = snd (cooldown_check cooldowns channel now).
Proof.
  unfold dispatch_schedule.
  destruct (cooldown_check cooldowns channel now) as [[r|] c]; reflexivity.
Qed.

(** Less than one twentieth rounds to no tenth. *)
Lemma tenths_small x :
  (0 <= fnum x)%Z -> (20 * fnum x < fden x)%Z -> tenths x = 0%Z.
Proof.
  intros Hpos Hsmall. unfold tenths. pose proof (fden_pos x) as HD.
  rewrite Z.abs_eq by exact Hpos.
  rewrite Z.div_small, Z.mod_small by lia.
  destruct (Z.ltb_spec (2 * (fnum x * 10)) (fden x)); [reflexivity|lia].
Qed.

(** More than one twentieth rounds to at least one tenth. *)
Lemma tenths_positive x :
  (fden x < 20 * fnum x)%Z -> (0 < tenths x)%Z.
Proof.
  intros Hbig. unfold tenths. pose proof (fden_pos x) as HD.
  assert (0 < fnum x)%Z as Hpos by lia.
  rewrite Z.abs_eq by lia.
  set (n := (fnum x * 10)%Z).
  pose proof (Z.div_mod n (fden x) ltac:(lia)) as Hdm.
  pose proof (Z.mod_pos_bound n (fden x) HD) as Hm.
  assert (0 <= n / fden x)%Z as Hq by (apply Z.div_pos; lia).
  assert (n / fden x = 0 \/ 1 <= n / fden x)%Z as [Hzero|Hone] by lia.
  - rewrite Hzero in *. rewrite Z.mul_0_r, Z.add_0_l in Hdm.
    destruct (Z.ltb_spec (2 * (n mod fden x)) (fden x)); [lia|].
    destruct (Z.ltb_spec (fden x) (2 * (n mod fden x))); [lia|].
    unfold n in *. lia.
  - destruct (Z.ltb_spec (2 * (n mod fden x)) (fden x)); [lia|].
    destruct (Z.ltb_spec (fden x) (2 * (n mod fden x))); [lia|].
    destruct (Z.even (n / fden x)); lia.
Qed.

(** C9, counterexample: a second invocation 9.96875 seconds after the
    first one in the same channel is rejected with 0.03125 seconds left,
    and the message shows this wait time with one decimal, as 0.0. *)
Lemma cooldown_message_shows_zero :
  let first := dispatch_schedule ∅ 7%Z (PyFloat 0 0) meet_ctx in
  let second := dispatch_schedule (snd first) 7%Z (PyFloat 319 5) meet_ctx in
  run (fst second) (quiet (Ok [alice_says_here]) (Ok (py "Mon 5pm")))
  = (Ok tt,
     [EvSend ViaCtx
        (CLOCK :: py " Please wait 0.0 seconds before using this command again.")
        true]).
Proof. vm_compute. reflexivity. Qed.

(** C9, as amended: after an invocation of the schedule command that is
    accepted in a channel, a second invocation in the same channel, not
    earlier and less than 10 seconds later, is rejected: the handler does
    not run, so nothing is fetched and the chain is not called, the
    cooldown window is left as it is, and the only thing posted is the
    cooldown message, which shows the remaining wait time as [.1f] formats
    it.  The remaining time itself is positive and at most 10 seconds; the
    number shown is positive when more than 0.05 seconds remain and is 0.0
    when less than 0.05 seconds remain. *)
Theorem cooldown_rejects_second cooldowns channel (t1 t2 : pyfloat) ctx1 ctx2 (w : env) :
  fst (cooldown_check cooldowns channel t1) = None ->
  flt t2 t1 = false ->
  flt (fsub t2 t1) COOLDOWN_PER = true ->
  let cooldowns1 := snd (dispatch_schedule cooldowns channel t1 ctx1) in
  let remaining := fsub COOLDOWN_PER (fsub t2 t1) in
  ((0 < fnum remaining)%Z /\ flt COOLDOWN_PER remaining = false) /\
  (exists d,
      snd (run (fst (dispatch_schedule cooldowns1 channel t2 ctx2)) w)
      = [EvSend ViaCtx (cooldown_msg remaining) d]) /\
  snd (dispatch_schedule cooldowns1 channel t2 ctx2) = cooldowns1 /\
  ((fden remaining < 20 * fnum remaining)%Z -> (0 < tenths remaining)%Z) /\
  ((20 * fnum remaining < fden remaining)%Z -> format_1f remaining = py "0.0").
Proof.
  intros Hfirst Hafter Hwindow cooldowns1 remaining.
  assert (cooldowns1 = <[channel := t1]> cooldowns) as E1.
  { unfold cooldowns1. rewrite dispatch_schedule_cooldowns.
    rewrite (cooldown_check_accepts _ _ _ Hfirst). reflexivity. }
  assert (cooldown_check cooldowns1 channel t2 = (Some remaining, cooldowns1)) as E2.
  { unfold cooldown_check. rewrite E1, lookup_insert_eq.
    cbv zeta. rewrite Hwindow. reflexivity. }
  assert (0 < fnum remaining)%Z as Hpos.
  { unfold flt in Hwindow. apply Z.ltb_lt in Hwindow.
    change (fden COOLDOWN_PER) with 1%Z in Hwindow.
    change (fnum COOLDOWN_PER) with 10%Z in Hwindow.
    unfold remaining, fsub at 1. cbn [fnum].
    change (fden COOLDOWN_PER) with 1%Z.
    change (fnum COOLDOWN_PER) with 10%Z. lia. }
  split; [split; [exact Hpos|]|]. 2: split; [|split; [|split]].
  - unfold flt. apply Z.ltb_ge.
    unfold flt in Hafter. apply Z.ltb_ge in Hafter.
    change (fden COOLDOWN_PER) with 1%Z.
    change (fnum COOLDOWN_PER) with 10%Z.
    assert (fden remaining = fden (fsub t2 t1)) as ->
      by (unfold remaining, fsub, fden; cbn [fexp]; reflexivity).
    unfold remaining. unfold fsub at 1. cbn [fnum].
    change (fden COOLDOWN_PER) with 1%Z.
    change (fnum COOLDOWN_PER) with 10%Z.
    assert (0 <= fnum (fsub t2 t1))%Z by (unfold fsub; cbn [fnum]; lia).
    lia.
  - unfold dispatch_schedule. rewrite E2. cbn [fst].
    unfold run, on_command_error, send. cbn [sends_so_far List.filter length].
    destruct (send_outcome w 0); simpl; eauto.
  - rewrite dispatch_schedule_cooldowns, E2. reflexivity.
  - apply tenths_positive.
  - intros Hsmall. unfold format_1f.
    destruct (Z.ltb_spec (fnum remaining) 0); [lia|].
    rewrite tenths_small by lia. reflexivity.
Qed.

Lemma cooldown_rejects_second_witness :
  exists d,
    snd (run (fst (dispatch_schedule
                     (snd (dispatch_schedule ∅ 7%Z (PyFloat 0 0) meet_ctx))
                     7%Z (PyFloat 4 0) meet_ctx))
             (quiet (Ok [alice_says_here]) (Ok (py "Mon 5pm"))))
    = [EvSend ViaCtx (cooldown_msg (fsub COOLDOWN_PER (fsub (PyFloat 4 0) (PyFloat 0 0)))) d].
Proof.
  refine (proj1 (proj2 (cooldown_rejects_second
                          (∅ : gmap Z pyfloat) 7%Z (PyFloat 0 0) (PyFloat 4 0)
                          meet_ctx meet_ctx
                          (quiet (Ok [alice_says_here]) (Ok (py "Mon 5pm")))
                          _ _ _))).
  - vm_compute. reflexivity.
  - reflexivity.
  - reflexivity.
Defined.

End Cooldown.

(** * Further properties of the code *)

(** ** The sanitizer and the transcript, lines 124-139 *)

Section TranscriptMore.

Import Samples.

Implicit Types (s r : pystr) (messages : list message).

Lemma replace_scan_absent old new s :
  contains old s = false -> replace_scan old new 0 s = s.
Proof.
  induction s as [|c s IH]; [reflexivity|]. intros H.
  change (contains old (c :: s))
    with (startswith old (c :: s) || contains old s) in H.
  apply orb_false_iff in H as [Hhead Htail].
  rewrite (replace_scan_miss _ _ _ _ Hhead), IH by exact Htail. reflexivity.
Qed.

(** X1: [sanitize] returns a content unchanged exactly when the content
    holds neither raw token; so sanitizing a sanitized content changes
    nothing. *)
Theorem sanitize_fixes_clean_content s :
  (sanitize s = s <->
   contains TOKEN_EVERYONE s = false /\ contains TOKEN_HERE s = false) /\
  sanitize (sanitize s) = sanitize s.
Proof.
  assert (forall x, contains TOKEN_EVERYONE x = false ->
                    contains TOKEN_HERE x = false -> sanitize x = x) as Hfix.
  { intros x He Hh. rewrite sanitize_scans.
    rewrite (replace_scan_absent _ _ _ He). apply replace_scan_absent, Hh. }
  split; [split|].
  - intros E. rewrite <- E. apply sanitize_clean.
  - intros [He Hh]. apply Hfix; assumption.
  - apply Hfix; apply sanitize_clean.
Qed.

Lemma sanitized_visible s r :
  sanitized s r ->
  List.filter (fun c => negb (c =? ZWSP)%N) r
  = List.filter (fun c => negb (c =? ZWSP)%N) s.
Proof.
  induction 1 as [|s r _ IH|s r _ IH|c s r _ _ _ IH].
  - reflexivity.
  - rewrite !List.filter_app. f_equal. exact IH.
  - rewrite !List.filter_app. f_equal. exact IH.
  - simpl. destruct (negb (c =? ZWSP)%N); [f_equal|]; exact IH.
Qed.

(** X2: [sanitize] only inserts zero-width spaces: with the zero-width
    spaces taken out, the sanitized content and the content are the same
    text. *)
Theorem sanitize_keeps_visible_text s :
  List.filter (fun c => negb (c =? ZWSP)%N) (sanitize s)
  = List.filter (fun c => negb (c =? ZWSP)%N) s.
Proof. apply sanitized_visible, sanitize_sanitized. Qed.

Lemma last_app_nonempty (a b : pystr) d :
  b <> [] -> List.last (a ++ b) d = List.last b d.
Proof.
  intros Hb. induction a as [|x a IH]; [reflexivity|].
  simpl. destruct (a ++ b) eqn:E; [|exact IH].
  apply app_eq_nil in E as [_ E]. contradiction.
Qed.

Lemma sanitized_nil_iff s r : sanitized s r -> (s = [] <-> r = []).
Proof.
  intros H. apply sanitized_length in H as [H1 H2].
  destruct s, r; simpl in *; split; intros E; try reflexivity;
    try discriminate; lia.
Qed.

Lemma sanitized_ends s r :
  sanitized s r -> forall d, List.hd d r = List.hd d s /\ List.last r d = List.last s d.
Proof.
  induction 1 as [|s r H IH|s r H IH|c s r _ _ H IH]; intros d.
  - split; reflexivity.
  - split; [reflexivity|].
    destruct s as [|c s].
    + rewrite (proj1 (sanitized_nil_iff _ _ H) eq_refl). reflexivity.
    + assert (r <> []) as Hr.
      { intros E. apply (sanitized_nil_iff _ _ H) in E. discriminate. }
      rewrite !last_app_nonempty by (exact Hr || discriminate). apply IH.
  - split; [reflexivity|].
    destruct s as [|c s].
    + rewrite (proj1 (sanitized_nil_iff _ _ H) eq_refl). reflexivity.
    + assert (r <> []) as Hr.
      { intros E. apply (sanitized_nil_iff _ _ H) in E. discriminate. }
      rewrite !last_app_nonempty by (exact Hr || discriminate). apply IH.
  - split; [reflexivity|].
    destruct s as [|x s].
    + rewrite (proj1 (sanitized_nil_iff _ _ H) eq_refl). reflexivity.
    + destruct r as [|y r].
      * discriminate (proj2 (sanitized_nil_iff _ _ H) eq_refl).
      * change (List.last (c :: y :: r) d) with (List.last (y :: r) d).
        change (List.last (c :: x :: s) d) with (List.last (x :: s) d). apply IH.
Qed.

(** *** Trimming *)

Lemma lstrip_by_head drop s c t : lstrip_by drop s = c :: t -> drop c = false.
Proof.
  induction s as [|x s IH]; simpl; [discriminate|].
  destruct (drop x) eqn:E; [exact IH|].
  intros [= <- _]. exact E.
Qed.

Lemma rstrip_by_snoc_keep drop s z :
  drop z = false -> rstrip_by drop (s ++ [z]) = s ++ [z].
Proof.
  intros H. unfold rstrip_by. rewrite rev_unit. simpl. rewrite H.
  simpl. rewrite rev_involutive. reflexivity.
Qed.

Lemma rstrip_by_snoc_drop drop s z :
  drop z = true -> rstrip_by drop (s ++ [z]) = rstrip_by drop s.
Proof.
  intros H. unfold rstrip_by. rewrite rev_unit. simpl. rewrite H. reflexivity.
Qed.

Lemma rstrip_by_last drop s d :
  rstrip_by drop s <> [] -> drop (List.last (rstrip_by drop s) d) = false.
Proof.
  unfold rstrip_by. destruct (lstrip_by drop (rev s)) as [|c t] eqn:E;
    [intros H; contradiction H; reflexivity|intros _].
  simpl. rewrite last_last. exact (lstrip_by_head _ _ _ _ E).
Qed.

(** What [strip] returns is empty or begins and ends with a code point
    that is not white space. *)
Lemma strip_ends s d :
  strip s <> [] ->
  isspace (List.hd d (strip s)) = false /\
  isspace (List.last (strip s) d) = false.
Proof.
  intros Hne. split; [|apply rstrip_by_last; exact Hne].
  unfold strip in *.
  destruct (lstrip_by isspace s) as [|c t] eqn:E;
    [contradiction Hne; reflexivity|].
  pose proof (lstrip_by_head _ _ _ _ E) as Hc.
  destruct (rstrip_by_prefix isspace (c :: t)) as [post Hpost].
  destruct (rstrip_by isspace (c :: t)) as [|x t']; [contradiction Hne; reflexivity|].
  injection Hpost as <- _. exact Hc.
Qed.

(** *** The entries *)

Lemma qualifies_content m :
  qualifies m = true ->
  strip (content m) <> [] /\ sanitize (strip (content m)) <> [].
Proof.
  intros Hq. pose proof (qualifies_bounds m Hq) as Hb.
  pose proof (sanitize_length (strip (content m))) as Hl.
  split; intros E; rewrite E in *; simpl in *; lia.
Qed.

(** X3: the content of every entry of the transcript begins and ends with a
    code point that is not white space: the content is trimmed before it is
    tested, and neutralising the tokens changes neither its first nor its
    last code point. *)
Theorem entry_content_is_trimmed (m : message) (d : char) :
  qualifies m = true ->
  List.hd d (sanitize (strip (content m))) = List.hd d (strip (content m)) /\
  List.last (sanitize (strip (content m))) d = List.last (strip (content m)) d /\
  isspace (List.hd d (sanitize (strip (content m)))) = false /\
  isspace (List.last (sanitize (strip (content m))) d) = false.
Proof.
  intros Hq. destruct (qualifies_content m Hq) as [Hne _].
  destruct (sanitized_ends _ _ (sanitize_sanitized (strip (content m))) d)
    as [Hhd Hlast].
  destruct (strip_ends (content m) d Hne) as [H1 H2].
  rewrite Hhd, Hlast. repeat split; assumption.
Qed.

Lemma entry_content_is_trimmed_witness :
  isspace (List.hd NL (sanitize (strip (content alice_says_here)))) = false /\
  isspace (List.last (sanitize (strip (content alice_says_here))) NL) = false.
Proof.
  apply (entry_content_is_trimmed alice_says_here NL). reflexivity.
Defined.

Lemma filter_qualifies_twice messages :
  List.filter qualifies (List.filter qualifies messages)
  = List.filter qualifies messages.
Proof.
  induction messages as [|m messages IH]; [reflexivity|].
  simpl. destruct (qualifies m) eqn:E; [|exact IH].
  simpl. rewrite E, IH. reflexivity.
Qed.

(** X4: the messages the filter drops leave no trace: the transcript of a
    list of messages is the transcript of its qualifying messages. *)
Theorem transcript_ignores_dropped messages :
  build_transcript (List.filter qualifies messages) = build_transcript messages.
Proof.
  rewrite !build_transcript_lines, filter_qualifies_twice. reflexivity.
Qed.

Lemma entry_content_last (m : message) :
  qualifies m = true ->
  isspace (List.last (sanitize (strip (content m))) NL) = false.
Proof.
  intros Hq. destruct (qualifies_content m Hq) as [Hne _].
  destruct (sanitized_ends _ _ (sanitize_sanitized (strip (content m))) NL)
    as [_ Hlast].
  rewrite Hlast. apply strip_ends. exact Hne.
Qed.

Lemma transcript_newline messages :
  List.filter qualifies messages <> [] ->
  build_transcript messages ++ [NL]
  = concat (map transcript_line (List.filter qualifies messages)).
Proof.
  intros Hne. rewrite build_transcript_lines.
  destruct (exists_last Hne) as [kept [m Hkept]].
  assert (qualifies m = true) as Hq.
  { assert (In m (List.filter qualifies messages)) as Hin
      by (rewrite Hkept; apply in_or_app; right; left; reflexivity).
    apply List.filter_In in Hin as [_ Hq]. exact Hq. }
  rewrite Hkept, map_app, concat_app. simpl. rewrite app_nil_r.
  destruct (qualifies_content m Hq) as [_ Hc].
  pose proof (entry_content_last m Hq) as Hlast.
  set (before := concat (map transcript_line kept)).
  unfold transcript_line.
  rewrite (app_removelast_last NL Hc).
  set (z := List.last (sanitize (strip (content m))) NL) in *.
  set (y := removelast (sanitize (strip (content m)))).
  assert (before ++ username m ++ py ": " ++ (y ++ [z]) ++ [NL]
          = (before ++ username m ++ py ": " ++ y ++ [z]) ++ [NL]) as ->
    by (rewrite <- !app_assoc; reflexivity).
  f_equal. unfold rstrip.
  rewrite rstrip_by_snoc_drop by reflexivity.
  assert (before ++ username m ++ py ": " ++ y ++ [z]
          = (before ++ username m ++ py ": " ++ y) ++ [z]) as ->
    by (rewrite <- !app_assoc; reflexivity).
  apply rstrip_by_snoc_keep.
  destruct (N.eqb_spec z NL) as [E|E]; [rewrite E in Hlast; discriminate|].
  simpl. apply N.eqb_neq in E. rewrite E. reflexivity.
Qed.

(** X5: when at least one message qualifies, [rstrip] removes exactly the
    newline of the last entry: the transcript followed by one newline is
    the concatenation of the entries.  And the transcript is empty exactly
    when no message qualifies, so the "no valid messages" branch of
    line 141 is taken exactly then. *)
Theorem transcript_without_final_newline messages :
  (List.filter qualifies messages <> [] ->
   build_transcript messages ++ [NL]
   = concat (map transcript_line (List.filter qualifies messages))) /\
  (build_transcript messages = [] <-> List.filter qualifies messages = []).
Proof.
  split; [apply transcript_newline|]. split.
  - intros E. destruct (List.filter qualifies messages) as [|m kept] eqn:Hk;
      [reflexivity|exfalso].
    assert (List.filter qualifies messages <> []) as Hne by (rewrite Hk; discriminate).
    pose proof (transcript_newline messages Hne) as H.
    rewrite E, Hk in H. apply (f_equal (@length char)) in H.
    simpl in H. unfold transcript_line in H. rewrite !length_app in H.
    simpl in H. lia.
  - intros E. rewrite build_transcript_lines, E. reflexivity.
Qed.

Lemma transcript_without_final_newline_witness :
  build_transcript (rev [alice_says_here; blank_message; bob_says_everyone]) ++ [NL]
  = concat (map transcript_line
              (List.filter qualifies
                 (rev [alice_says_here; blank_message; bob_says_everyone]))).
Proof.
  apply (proj1 (transcript_without_final_newline
                  (rev [alice_says_here; blank_message; bob_says_everyone]))).
  discriminate.
Defined.

End TranscriptMore.

(** ** The clamp of lines 50-51 *)

Section ClampMore.

(** X6: the clamp keeps the first 1950 code points of every answer, cuts
    every answer longer than 2000 to exactly 1974 code points and leaves
    the length of the others, and clamping a clamped answer changes
    nothing. *)
Theorem clamp_response_stable (response : pystr) :
  clamp_response (clamp_response response) = clamp_response response /\
  firstn 1950 (clamp_response response) = firstn 1950 response /\
  length (clamp_response response)
  = if MAX_MESSAGE_LENGTH <? length response then 1974 else length response.
Proof.
  split; [|split].
  - pose proof (clamp_response_length response) as H.
    apply Nat.ltb_ge in H.
    unfold clamp_response at 1. rewrite H. reflexivity.
  - unfold clamp_response, slice_to.
    change (MAX_MESSAGE_LENGTH - 50) with 1950.
    destruct (Nat.ltb_spec MAX_MESSAGE_LENGTH (length response)) as [H|H];
      [|reflexivity].
    unfold MAX_MESSAGE_LENGTH in H.
    rewrite firstn_app, firstn_firstn, length_firstn.
    replace (1950 - Nat.min 1950 (length response)) with 0 by lia.
    rewrite Nat.min_id, firstn_O, app_nil_r. reflexivity.
  - unfold clamp_response, slice_to.
    change (MAX_MESSAGE_LENGTH - 50) with 1950.
    destruct (Nat.ltb_spec MAX_MESSAGE_LENGTH (length response)) as [H|H];
      [|reflexivity].
    unfold MAX_MESSAGE_LENGTH in H.
    rewrite length_app, length_firstn, length_truncation_marker. lia.
Qed.

End ClampMore.

(** ** Every run of the handler, lines 90-169 *)

Section HandlerMore.

Import Samples.

Implicit Types (w : env) (tr pre : trace) (ctx : context).

Lemma sends_so_far_snoc pre via text d :
  sends_so_far (pre ++ [EvSend via text d]) = S (sends_so_far pre).
Proof.
  unfold sends_so_far. rewrite List.filter_app, length_app. simpl. lia.
Qed.

Lemma handlers_answer e w pre :
  sends_so_far pre = 0 -> answer_run w pre (schedule_handlers e w pre).
Proof.
  intros H0. destruct e; unfold schedule_handlers, send; rewrite H0;
    destruct (send_outcome w 0) eqn:E0; econstructor; eassumption.
Qed.

Lemma guarded_answer via text w pre :
  sends_so_far pre = 0 ->
  answer_run w pre (try_except (send via text) schedule_handlers w pre).
Proof.
  intros H0. unfold try_except, send. rewrite H0.
  destruct (send_outcome w 0) as [e|] eqn:E0; [|constructor; exact E0].
  destruct e; unfold schedule_handlers, send;
    rewrite sends_so_far_snoc, H0;
    destruct (send_outcome w 1) eqn:E1; rewrite <- app_assoc;
    econstructor; eassumption.
Qed.

(** A failing typing request (line 102, outside the [try] of line 103)
    ends the invocation at once: its exception escapes and nothing is
    fetched or posted. *)
Lemma schedule_meet_typing_fails ctx w (e : exn) :
  action_is_meet (action ctx) = true ->
  typing_outcome w = Some e ->
  run (schedule_meet ctx) w = (Raise e, [EvTyping]).
Proof.
  intros Hact Htyping. unfold run, schedule_meet. rewrite Hact.
  cbn [negb]. unfold bind, typing. rewrite Htyping. reflexivity.
Qed.

(** Every run of [schedule_meet] either stops at a failing typing request
    or is some events of [before_answer] followed by an answer. *)
Lemma schedule_meet_answers ctx w :
  (exists e,
      action ctx = Some (py "meet") /\ typing_outcome w = Some e /\
      run (schedule_meet ctx) w = (Raise e, [EvTyping])) \/
  (action ctx <> Some (py "meet") \/ typing_outcome w = None) /\
  exists pre,
    before_answer w ctx pre /\ answer_run w pre (run (schedule_meet ctx) w).
Proof.
  destruct (action_is_meet (action ctx)) eqn:Hact.
  - destruct (typing_outcome w) as [e|] eqn:Htyping.
    { left. exists e. split; [apply action_is_meet_iff; exact Hact|].
      split; [reflexivity|].
      apply schedule_meet_typing_fails; assumption. }
    right. split; [right; reflexivity|].
    destruct (fetch_outcome w) as [[|m messages]|e] eqn:Hf.
    + exists [EvTyping; EvFetch 20]. split; [right; left; reflexivity|].
      rewrite (schedule_meet_fetches ctx w Hact Htyping), Hf.
      apply guarded_answer. reflexivity.
    + destruct (truthy (build_transcript (rev (m :: messages)))) eqn:Ht.
      * destruct (guild_name ctx) as [g|] eqn:Hg.
        -- exists [EvTyping; EvFetch 20;
                   EvInvoke (build_transcript (rev (m :: messages)))].
           split.
           ++ right; right. exists (m :: messages).
              repeat split; try assumption.
              ** apply action_is_meet_iff. exact Hact.
              ** rewrite Hg. discriminate.
              ** intros E. rewrite E in Ht. discriminate.
           ++ rewrite (schedule_meet_replies ctx w m messages Hact Htyping
                         ltac:(rewrite Hg; discriminate) Hf Ht).
              cbv zeta.
              match goal with
              | |- context [if truthy ?r then _ else _] => destruct (truthy r)
              end; apply guarded_answer; reflexivity.
        -- exists [EvTyping; EvFetch 20]. split; [right; left; reflexivity|].
           rewrite (schedule_meet_fetches ctx w Hact Htyping), Hf.
           cbv zeta. rewrite Ht. cbn [negb].
           unfold try_except, bind, log_request. rewrite Hg.
           apply handlers_answer. reflexivity.
      * exists [EvTyping; EvFetch 20]. split; [right; left; reflexivity|].
        rewrite (schedule_meet_fetches ctx w Hact Htyping), Hf.
        cbv zeta. rewrite Ht. apply guarded_answer. reflexivity.
    + exists [EvTyping; EvFetch 20]. split; [right; left; reflexivity|].
      rewrite (schedule_meet_fetches ctx w Hact Htyping), Hf.
      destruct e; try (apply guarded_answer; reflexivity);
        apply handlers_answer; reflexivity.
  - right. split.
    { left. intros E. apply action_is_meet_iff in E. congruence. }
    exists []. split; [left; reflexivity|].
    unfold run, schedule_meet, send. rewrite Hact. cbn [negb sends_so_far List.filter length].
    destruct (send_outcome w 0) eqn:E0; econstructor; eassumption.
Qed.


(** X8: the chain is called only for a command with the action [meet]
    sent in a guild, after a successful fetch, and only on the transcript
    of the fetched messages, which is then not empty. *)
Theorem chain_called_on_transcript ctx w (t : pystr) :
  In (EvInvoke t) (snd (run (schedule_meet ctx) w)) ->
  exists fetched,
    fetch_outcome w = Ok fetched /\
    action ctx = Some (py "meet") /\
    guild_name ctx <> None /\
    t = build_transcript (rev fetched) /\
    t <> [].
Proof.
  destruct (schedule_meet_answers ctx w)
    as [[e [_ [_ ->]]]|[_ [pre [Hpre Hrun]]]].
  { cbn [snd]. intros [H|[]]. discriminate H. }
  intros Hin.
  assert (In (EvInvoke t) pre) as Hin'.
  { inversion Hrun as [via text E0 E|via text e E0 E|via text e text' E0 E1 E
                      |via text e text' e' E0 E1 E];
      rewrite <- E in Hin; cbn [snd] in Hin;
      apply in_app_or in Hin as [Hin|Hin]; try exact Hin;
      simpl in Hin; repeat (destruct Hin as [Hin|Hin]; try discriminate Hin);
      contradiction. }
  destruct Hpre as [->|[->|[fetched [Hf [Ha [Hg [Hne ->]]]]]]].
  - contradiction.
  - simpl in Hin'. repeat (destruct Hin' as [Hin'|Hin']; try discriminate Hin').
    contradiction.
  - simpl in Hin'.
    repeat (destruct Hin' as [Hin'|Hin']; try discriminate Hin'); [|contradiction].
    injection Hin' as <-. exists fetched. repeat split; assumption.
Qed.

Lemma chain_called_on_transcript_witness :
  exists fetched,
    fetch_outcome (quiet (Ok [bob_says_everyone]) (Ok (py "Mon 5pm"))) = Ok fetched /\
    action meet_ctx = Some (py "meet") /\
    guild_name meet_ctx <> None /\
    py "bob: " ++ SAFE_EVERYONE ++ py " 5pm UTC works" = build_transcript (rev fetched) /\
    py "bob: " ++ SAFE_EVERYONE ++ py " 5pm UTC works" <> [].
Proof.
  apply (chain_called_on_transcript meet_ctx
           (quiet (Ok [bob_says_everyone]) (Ok (py "Mon 5pm")))).
  right. right. left. reflexivity.
Defined.

(** X9: when the platform accepts the first posting of an invocation, the
    handler returns normally and that posting is the only one: the user
    sees exactly one message.  The one other run is that of a failing
    typing request (line 102, action [meet]), whose exception escapes with
    nothing posted. *)
Theorem first_posting_accepted ctx w :
  send_outcome w 0 = None ->
  (exists e,
      action ctx = Some (py "meet") /\ typing_outcome w = Some e /\
      run (schedule_meet ctx) w = (Raise e, [EvTyping])) \/
  (exists pre via text,
      before_answer w ctx pre /\
      run (schedule_meet ctx) w = (Ok tt, pre ++ [EvSend via text true])).
Proof.
  intros Hsend.
  destruct (schedule_meet_answers ctx w) as [H|[_ [pre [Hpre Hrun]]]];
    [left; exact H|right].
  inversion Hrun as [via text E0 E|via text e E0 E|via text e text' E0 E1 E
                    |via text e text' e' E0 E1 E]; try congruence.
  exists pre, via, text. split; [exact Hpre|reflexivity].
Qed.

Lemma first_posting_accepted_witness :
  (exists e,
      action meet_ctx = Some (py "meet") /\
      typing_outcome (quiet (Raise Forbidden) (Ok (py "Mon 5pm"))) = Some e /\
      run (schedule_meet meet_ctx) (quiet (Raise Forbidden) (Ok (py "Mon 5pm")))
      = (Raise e, [EvTyping])) \/
  (exists pre via text,
      before_answer (quiet (Raise Forbidden) (Ok (py "Mon 5pm"))) meet_ctx pre /\
      run (schedule_meet meet_ctx) (quiet (Raise Forbidden) (Ok (py "Mon 5pm")))
      = (Ok tt, pre ++ [EvSend via text true])).
Proof.
  apply (first_posting_accepted meet_ctx (quiet (Raise Forbidden) (Ok (py "Mon 5pm")))).
  reflexivity.
Defined.

(** X10: an exception escapes the handler only when the typing request of
    line 102 fails, with nothing fetched and nothing posted, or when a
    posting fails, the first one or the notice that follows a failed first
    one; the exception is the one of that request or posting, which is the
    last event of the run. *)
Theorem handler_raises_only_on_failed_request ctx w (e : exn) :
  fst (run (schedule_meet ctx) w) = Raise e ->
  (action ctx = Some (py "meet") /\ typing_outcome w = Some e /\
   snd (run (schedule_meet ctx) w) = [EvTyping]) \/
  (exists k pre via text,
      k <= 1 /\ send_outcome w k = Some e /\
      snd (run (schedule_meet ctx) w) = pre ++ [EvSend via text false]).
Proof.
  destruct (schedule_meet_answers ctx w)
    as [[e0 [Hact [Htyping ->]]]|[_ [pre [Hpre Hrun]]]].
  { cbn [fst snd]. intros [= <-]. left. repeat split; assumption. }
  inversion Hrun as [via text E0 E|via text e0 E0 E|via text e0 text' E0 E1 E
                    |via text e0 text' e' E0 E1 E];
    cbn [fst snd]; intros Hr; try discriminate Hr; injection Hr as <-; right.
  - exists 0, pre, via, text.
    split; [lia|]. split; [exact E0|]. reflexivity.
  - exists 1, (pre ++ [EvSend via text false]), ViaCtx, text'.
    split; [lia|]. split; [exact E1|].
    rewrite <- app_assoc. reflexivity.
Qed.

Lemma handler_raises_only_on_failed_request_witness :
  (action meet_ctx = Some (py "meet") /\
   typing_outcome (Env (Ok []) (fun _ => Ok (py "Mon 5pm")) (fun _ => None)
                       (Some HTTPException)) = Some HTTPException /\
   snd (run (schedule_meet meet_ctx)
            (Env (Ok []) (fun _ => Ok (py "Mon 5pm")) (fun _ => None)
                 (Some HTTPException))) = [EvTyping]) \/
  (exists k pre via text,
      k <= 1 /\
      send_outcome (Env (Ok []) (fun _ => Ok (py "Mon 5pm")) (fun _ => None)
                        (Some HTTPException)) k = Some HTTPException /\
      snd (run (schedule_meet meet_ctx)
               (Env (Ok []) (fun _ => Ok (py "Mon 5pm")) (fun _ => None)
                    (Some HTTPException))) = pre ++ [EvSend via text false]).
Proof.
  apply (handler_raises_only_on_failed_request meet_ctx
           (Env (Ok []) (fun _ => Ok (py "Mon 5pm")) (fun _ => None)
                (Some HTTPException))
           HTTPException).
  reflexivity.
Defined.

End HandlerMore.

(** ** The branches of the handler *)

Section HandlerBranches.

Import Samples.

Implicit Types (w : env) (ctx : context).

(** A notice posted right after the fetch. *)
Lemma notice_after_fetch via text w :
  let R := try_except (send via text) schedule_handlers w [EvTyping; EvFetch 20] in
  (exists d rest, snd R = [EvTyping; EvFetch 20] ++ EvSend via text d :: rest) /\
  List.filter is_invoke (snd R) = [] /\
  (send_outcome w 0 = None ->
   R = (Ok tt, [EvTyping; EvFetch 20; EvSend via text true])).
Proof.
  intros R.
  destruct (guarded_send via text w [EvTyping; EvFetch 20] eq_refl)
    as [[d [rest [E [Hinv _]]]] Hok].
  split; [exists d, rest; exact E|]. split; [|exact Hok].
  unfold R. rewrite E, List.filter_app. simpl. exact Hinv.
Qed.

(** X11: when the fetch runs out of time (lines 115-118), the handler posts
    the timeout notice as its first and, when the posting succeeds, only
    message, and the chain is not called. *)
Theorem fetch_timeout_reported w ctx :
  action ctx = Some (py "meet") ->
  typing_outcome w = None ->
  fetch_outcome w = Raise TimeoutError ->
  (exists d rest,
      snd (run (schedule_meet ctx) w)
      = [EvTyping; EvFetch 20] ++ EvSend ViaCtx timeout_msg d :: rest) /\
  List.filter is_invoke (snd (run (schedule_meet ctx) w)) = [] /\
  (send_outcome w 0 = None ->
   run (schedule_meet ctx) w
   = (Ok tt, [EvTyping; EvFetch 20; EvSend ViaCtx timeout_msg true])).
Proof.
  intros Hact Htyping Hfetch. apply action_is_meet_iff in Hact.
  rewrite (schedule_meet_fetches ctx w Hact Htyping), Hfetch.
  apply notice_after_fetch.
Qed.

Lemma fetch_timeout_reported_witness :
  run (schedule_meet meet_ctx) (quiet (Raise TimeoutError) (Ok (py "Mon 5pm")))
  = (Ok tt, [EvTyping; EvFetch 20; EvSend ViaCtx timeout_msg true]).
Proof.
  apply (fetch_timeout_reported (quiet (Raise TimeoutError) (Ok (py "Mon 5pm")))
           meet_ctx eq_refl eq_refl eq_refl).
  reflexivity.
Defined.

(** X12: when the fetch fails otherwise (lines 162-169), the only posting
    is one notice: the permission notice for [discord.Forbidden], the
    communication notice for any other [discord.HTTPException], the
    "unexpected error" notice for every other exception; the chain is not
    called. *)
Theorem fetch_failure_reported w ctx (e : exn) :
  action ctx = Some (py "meet") ->
  typing_outcome w = None ->
  fetch_outcome w = Raise e ->
  e <> TimeoutError ->
  exists d,
    snd (run (schedule_meet ctx) w)
    = [EvTyping; EvFetch 20;
       EvSend ViaCtx
         match e with
         | Forbidden => forbidden_msg
         | HTTPException => http_error_msg
         | _ => unexpected_msg
         end d].
Proof.
  intros Hact Htyping Hfetch Hne. apply action_is_meet_iff in Hact.
  rewrite (schedule_meet_fetches ctx w Hact Htyping), Hfetch.
  destruct e; [contradiction Hne; reflexivity| | |];
    unfold try_except, raise, schedule_handlers, send;
    cbn [sends_so_far List.filter is_send length];
    destruct (send_outcome w 0); simpl; eauto.
Qed.

Lemma fetch_failure_reported_witness :
  exists d,
    snd (run (schedule_meet meet_ctx) (quiet (Raise Forbidden) (Ok (py "Mon 5pm"))))
    = [EvTyping; EvFetch 20; EvSend ViaCtx forbidden_msg d].
Proof.
  apply (fetch_failure_reported (quiet (Raise Forbidden) (Ok (py "Mon 5pm")))
           meet_ctx Forbidden eq_refl eq_refl eq_refl).
  discriminate.
Defined.

(** X13: outside a guild the log line of line 146 fails before the chain
    is called: even with valid messages the only posting is the
    "unexpected error" notice. *)
Theorem outside_guild_never_calls_chain w ctx (fetched : list message) :
  action ctx = Some (py "meet") ->
  typing_outcome w = None ->
  guild_name ctx = None ->
  fetch_outcome w = Ok fetched ->
  build_transcript (rev fetched) <> [] ->
  exists d,
    snd (run (schedule_meet ctx) w)
    = [EvTyping; EvFetch 20; EvSend ViaCtx unexpected_msg d].
Proof.
  intros Hact Htyping Hguild Hfetch Hne. apply action_is_meet_iff in Hact.
  rewrite (schedule_meet_fetches ctx w Hact Htyping), Hfetch.
  destruct fetched as [|m messages]; [contradiction Hne; reflexivity|].
  cbv zeta.
  destruct (build_transcript (rev (m :: messages))) as [|c t] eqn:Ht;
    [contradiction Hne; reflexivity|].
  cbn [truthy negb].
  unfold try_except, bind, log_request. rewrite Hguild.
  unfold raise, schedule_handlers, send.
  cbn [sends_so_far List.filter is_send length].
  destruct (send_outcome w 0); simpl; eauto.
Qed.

Lemma outside_guild_never_calls_chain_witness :
  exists d,
    snd (run (schedule_meet (Context (Some (py "meet")) None))
             (quiet (Ok [bob_says_everyone]) (Ok (py "Mon 5pm"))))
    = [EvTyping; EvFetch 20; EvSend ViaCtx unexpected_msg d].
Proof.
  apply (outside_guild_never_calls_chain
           (quiet (Ok [bob_says_everyone]) (Ok (py "Mon 5pm")))
           (Context (Some (py "meet")) None) [bob_says_everyone]
           eq_refl eq_refl eq_refl eq_refl).
  vm_compute. discriminate.
Defined.

(** X14: when the chain answers (lines 148-160), the handler has called it
    once, on the transcript, and its first posting is the clamped answer
    through [channel.send] when the answer is not empty, and the
    "couldn't generate a response" notice through [ctx.send] when it is
    empty; when the posting succeeds it is the only one. *)
Theorem answer_posted w ctx (fetched : list message) (response : pystr) :
  action ctx = Some (py "meet") ->
  typing_outcome w = None ->
  guild_name ctx <> None ->
  fetch_outcome w = Ok fetched ->
  build_transcript (rev fetched) <> [] ->
  chain_outcome w (build_transcript (rev fetched)) = Ok response ->
  let t := build_transcript (rev fetched) in
  let via := if truthy response then ViaChannel else ViaCtx in
  let text := if truthy response then clamp_response response else no_response_msg in
  (exists d rest,
      snd (run (schedule_meet ctx) w)
      = [EvTyping; EvFetch 20; EvInvoke t] ++ EvSend via text d :: rest /\
      List.filter is_invoke rest = []) /\
  (send_outcome w 0 = None ->
   run (schedule_meet ctx) w
   = (Ok tt, [EvTyping; EvFetch 20; EvInvoke t; EvSend via text true])).
Proof.
  intros Hact Htyping Hguild Hfetch Hne Hchain t via text.
  apply action_is_meet_iff in Hact.
  destruct fetched as [|m messages]; [contradiction Hne; reflexivity|].
  assert (truthy (build_transcript (rev (m :: messages))) = true) as Ht.
  { destruct (build_transcript (rev (m :: messages)));
      [contradiction Hne|]; reflexivity. }
  rewrite (schedule_meet_replies ctx w m messages Hact Htyping Hguild Hfetch Ht).
  cbv zeta. rewrite Hchain, clamp_response_nonempty.
  fold t.
  assert ((if truthy response
           then send ViaChannel (clamp_response response)
           else send ViaCtx no_response_msg) = send via text) as ->
    by (unfold via, text; destruct (truthy response); reflexivity).
  destruct (guarded_send via text w [EvTyping; EvFetch 20; EvInvoke t] eq_refl)
    as [[d [rest [E [Hinv _]]]] Hok].
  split; [exists d, rest; split; assumption|exact Hok].
Qed.

Lemma answer_posted_witness :
  run (schedule_meet meet_ctx) (quiet (Ok [bob_says_everyone]) (Ok long_reply))
  = (Ok tt, [EvTyping; EvFetch 20;
             EvInvoke (build_transcript (rev [bob_says_everyone]));
             EvSend ViaChannel (clamp_response long_reply) true]).
Proof.
  apply (proj2 (answer_posted (quiet (Ok [bob_says_everyone]) (Ok long_reply))
                  meet_ctx [bob_says_everyone] long_reply
                  eq_refl eq_refl ltac:(discriminate) eq_refl
                  ltac:(vm_compute; discriminate) eq_refl)).
  reflexivity.
Defined.

(** The global command error handler (lines 77-88) ignores an unknown
    command without posting anything, and answers every other command
    error with exactly one posting: the usage notice for a missing
    argument, the cooldown message for a cooldown, the "unexpected error"
    notice otherwise. *)
Lemma on_command_error_answers (error : command_error) w :
  match error with
  | CommandNotFound => run (on_command_error error) w = (Ok tt, [])
  | MissingRequiredArgument =>
      exists d, snd (run (on_command_error error) w) = [EvSend ViaCtx usage_msg d]
  | CommandOnCooldown retry_after =>
      exists d, snd (run (on_command_error error) w)
                = [EvSend ViaCtx (cooldown_msg retry_after) d]
  | CommandInvokeError _ =>
      exists d, snd (run (on_command_error error) w) = [EvSend ViaCtx unexpected_msg d]
  end.
Proof.
  destruct error; unfold run, on_command_error, send, ret;
    cbn [sends_so_far List.filter length];
    try reflexivity; destruct (send_outcome w 0); simpl; eauto.
Qed.

End HandlerBranches.

(** ** Start-up and shutdown *)

Section BootFacts.

Import Boot.

Implicit Types (b : boot_env).

Lemma validate_environment_true b :
  fst (validate_environment b) = inr true <->
  token_given b = true /\ import_outcome b = None.
Proof.
  unfold validate_environment.
  destruct (token_given b); cbn [negb fst].
  - destruct (import_outcome b) as [[]|]; cbn [fst]; split;
      try (intros [_ H]; discriminate H); try discriminate; auto.
  - split; [discriminate|intros [H _]; discriminate H].
Qed.

(** X15: [main] starts the bot at most once, and only with a non-empty
    token and an importable agent; the token it passes is [BOT_TOKEN]. *)
Theorem main_starts_with_token b :
  length (List.filter is_start (snd (main b))) <= 1 /\
  forall token,
    In (BotStart token) (snd (main b)) ->
    BOT_TOKEN b = Some token /\ token <> [] /\ import_outcome b = None.
Proof.
  unfold main, validate_environment, start_bot, close_bot, token_given.
  destruct (BOT_TOKEN b) as [[|c t]|]; cbn [negb snd];
    try (split; [simpl; lia|intros token [H|[]]; discriminate H]).
  destruct (import_outcome b) as [[]|];
    try (split; [simpl; lia|intros token H; (contradiction || (destruct H as [H|[]]; discriminate H))]).
  destruct (start_outcome b) as [[]|], (is_closed b); cbn [negb snd is_exception];
    (split; [simpl; lia|]);
    intros token H; simpl in H;
    repeat (destruct H as [H|H]; try discriminate H); try contradiction;
    injection H as <-; repeat split; discriminate.
Qed.

Lemma main_starts_with_token_witness :
  BOT_TOKEN (BootEnv (Some (py "secret")) None (Some LoginFailure) false None)
  = Some (py "secret") /\
  py "secret" <> [] /\
  import_outcome (BootEnv (Some (py "secret")) None (Some LoginFailure) false None)
  = None.
Proof.
  apply (proj2 (main_starts_with_token
                  (BootEnv (Some (py "secret")) None (Some LoginFailure) false None))
               (py "secret")).
  right. left. reflexivity.
Defined.

(** X16: without a token, or with an empty one, [main] writes one error
    line and returns: the bot is neither started nor closed, and the agent
    is not looked at. *)
Theorem main_without_token b :
  BOT_TOKEN b = None \/ BOT_TOKEN b = Some [] ->
  main b = (inr tt, [BootLog TokenNotSet]).
Proof.
  unfold main, validate_environment, token_given.
  intros [-> | ->]; reflexivity.
Qed.

Lemma main_without_token_witness :
  main (BootEnv (Some []) None None false None) = (inr tt, [BootLog TokenNotSet]).
Proof.
  apply (main_without_token (BootEnv (Some []) None None false None)).
  right. reflexivity.
Defined.

(** X17: once [main] has started the bot, the [finally] block closes it
    exactly when it is not closed yet, whatever [bot.start] did: returned,
    raised an exception that is caught, or raised one that is not. *)
Theorem main_closes_bot b :
  fst (validate_environment b) = inr true ->
  exists started,
    snd (main b) = started ++ (if is_closed b then [] else [BotClose]) /\
    List.filter is_close started = [] /\
    List.filter is_start started = [BotStart (match BOT_TOKEN b with
                                              | Some t => t
                                              | None => []
                                              end)].
Proof.
  intros Hv. apply validate_environment_true in Hv as [Ht Hi].
  exists (snd (start_bot b)).
  unfold main, validate_environment, start_bot, close_bot.
  rewrite Ht, Hi. cbn [negb].
  destruct (start_outcome b) as [[]|], (is_closed b);
    cbn [negb snd is_exception app]; repeat split.
Qed.

Lemma main_closes_bot_witness :
  exists started,
    snd (main (BootEnv (Some (py "secret")) None (Some OtherBaseException) false None))
    = started ++ [BotClose] /\
    List.filter is_close started = [] /\
    List.filter is_start started = [BotStart (py "secret")].
Proof.
  apply (main_closes_bot
           (BootEnv (Some (py "secret")) None (Some OtherBaseException) false None)).
  reflexivity.
Defined.

(** X18: [main] lets an exception escape only when importing the agent
    raises something that is not an [ImportError], when [bot.close] raises,
    or when [bot.start] raises a [BaseException] that is neither an
    [Exception] nor a [KeyboardInterrupt]; and the entry point lets only
    such a [BaseException] escape: a [KeyboardInterrupt] and every
    [Exception] are logged. *)
Theorem escapes_of_main b (e : boot_exn) :
  (fst (main b) = inl e ->
   (import_outcome b = Some e /\ e <> ImportError) \/
   close_outcome b = Some e \/
   (start_outcome b = Some e /\ is_exception e = false /\ e <> KeyboardInterrupt)) /\
  (fst (entry_point b) = inl e -> e = OtherBaseException).
Proof.
  assert (fst (main b) = inl e ->
          (import_outcome b = Some e /\ e <> ImportError) \/
          close_outcome b = Some e \/
          (start_outcome b = Some e /\ is_exception e = false /\
           e <> KeyboardInterrupt)) as Hmain.
  { unfold main, validate_environment, start_bot, close_bot.
    destruct (token_given b); cbn [negb fst]; [|discriminate].
    destruct (import_outcome b) as [[]|]; cbn [fst];
      try discriminate;
      try (intros [= <-]; left; split; [reflexivity|discriminate]).
    destruct (start_outcome b) as [[]|], (is_closed b);
      cbn [negb fst is_exception]; try discriminate;
      try (destruct (close_outcome b) as [x|]; [|discriminate];
           intros [= <-]; right; left; reflexivity);
      try (intros [= <-]; right; right; repeat split; discriminate).
    destruct (close_outcome b) as [x|]; intros [= <-];
      [right; left; reflexivity|right; right; repeat split; discriminate]. }
  split; [exact Hmain|].
  unfold entry_point. destruct (main b) as [[x|[]] tr]; cbn [fst]; [|discriminate].
  destruct x; cbn [is_exception fst]; try discriminate.
  intros [= <-]. reflexivity.
Qed.

Lemma escapes_of_main_witness :
  (import_outcome (BootEnv (Some (py "secret")) None None false (Some OtherError))
   = Some OtherError /\ OtherError <> ImportError) \/
  close_outcome (BootEnv (Some (py "secret")) None None false (Some OtherError))
  = Some OtherError \/
  (start_outcome (BootEnv (Some (py "secret")) None None false (Some OtherError))
   = Some OtherError /\ is_exception OtherError = false /\
   OtherError <> KeyboardInterrupt).
Proof.
  apply (proj1 (escapes_of_main
                  (BootEnv (Some (py "secret")) None None false (Some OtherError))
                  OtherError)).
  reflexivity.
Defined.

End BootFacts.
